(** * Document intake of the provider-onboarding API (upload-documents handler)

    A shallow embedding of the serverless handler that receives a batch of
    provider documents: the multer intake configuration, the inline filename
    normaliser, the document-type resolution, the per-file upload / insert /
    clean-up sequence, the batch post-processing and the requirement check.

    JavaScript strings are sequences of UTF-16 code units; they are modelled as
    lists of numbers.  The remote services reached through the Supabase client
    (object storage, the three tables) and the wall clock are an explicit
    [World] threaded through a state monad. *)

From Stdlib Require Import List NArith ZArith Bool Lia String Ascii.
From Stdlib Require Import DecimalN PeanoNat.
Import ListNotations.

Local Open Scope N_scope.

(* ================================================================== *)
(** * Part I: definitions *)
(* ================================================================== *)

(** ** JavaScript strings *)

Definition code_unit := N.
Definition jsstring := list code_unit.

(** An ASCII literal of the source as a JavaScript string. *)
Definition lit (s : string) : jsstring :=
  map N_of_ascii (list_ascii_of_string s).

Definition str_eqb (a b : jsstring) : bool :=
  if list_eq_dec N.eq_dec a b then true else false.

Fixpoint starts_with (p s : jsstring) : bool :=
  match p, s with
  | [], _ => true
  | _ :: _, [] => false
  | a :: p', b :: s' => (a =? b) && starts_with p' s'
  end.

(** [s.includes(sub)] *)
Fixpoint includes (sub s : jsstring) : bool :=
  starts_with sub s ||
  match s with
  | [] => false
  | _ :: s' => includes sub s'
  end.

(** Decimal rendering of a non-negative integer, as [String(n)] and template
    literals give it for integers below 10^21. *)
Fixpoint uint_digits (u : Decimal.uint) : jsstring :=
  match u with
  | Decimal.Nil => []
  | Decimal.D0 u => 48 :: uint_digits u
  | Decimal.D1 u => 49 :: uint_digits u
  | Decimal.D2 u => 50 :: uint_digits u
  | Decimal.D3 u => 51 :: uint_digits u
  | Decimal.D4 u => 52 :: uint_digits u
  | Decimal.D5 u => 53 :: uint_digits u
  | Decimal.D6 u => 54 :: uint_digits u
  | Decimal.D7 u => 55 :: uint_digits u
  | Decimal.D8 u => 56 :: uint_digits u
  | Decimal.D9 u => 57 :: uint_digits u
  end.

Definition dec (n : N) : jsstring := uint_digits (N.to_uint n).

(** ** Character classes of the two regular expressions *)

Definition SP : code_unit := 32.

Definition is_digit (c : code_unit) : bool := (48 <=? c) && (c <=? 57).
Definition is_upper (c : code_unit) : bool := (65 <=? c) && (c <=? 90).
Definition is_lower (c : code_unit) : bool := (97 <=? c) && (c <=? 122).

(** [\w] without the [u] and [i] flags: ASCII letters, digits and underscore. *)
Definition is_word (c : code_unit) : bool :=
  is_lower c || is_upper c || is_digit c || (c =? 95).

(** [\s]: WhiteSpace and LineTerminator of ECMAScript; [String.prototype.trim]
    strips exactly the same code units. *)
Definition is_space (c : code_unit) : bool :=
  ((9 <=? c) && (c <=? 13)) || (c =? 32) || (c =? 160) || (c =? 5760)
  || ((8192 <=? c) && (c <=? 8202)) || (c =? 8232) || (c =? 8233)
  || (c =? 8239) || (c =? 8287) || (c =? 12288) || (c =? 65279).

(** The class [[\w\s.-]]; the first regular expression matches its complement. *)
Definition in_class (c : code_unit) : bool :=
  is_word c || is_space c || (c =? 46) || (c =? 45).

(** ** The inline filename normaliser (lines 155-158 and 161-164) *)

(** [.replace(/[^\w\s.-]/g, " ")]: every match is a single code unit. *)
Definition replace_disallowed (s : jsstring) : jsstring :=
  map (fun c => if in_class c then c else SP) s.

(** [.replace(/\s+/g, " ")]: a left-to-right scan; [in_match] says that the
    previous code unit belongs to the match already replaced. *)
Fixpoint replace_ws_runs (in_match : bool) (s : jsstring) : jsstring :=
  match s with
  | [] => []
  | c :: s' =>
      if is_space c
      then if in_match then replace_ws_runs true s'
           else SP :: replace_ws_runs true s'
      else c :: replace_ws_runs false s'
  end.

Fixpoint drop_ws (s : jsstring) : jsstring :=
  match s with
  | [] => []
  | c :: s' => if is_space c then drop_ws s' else s
  end.

(** [.trim()] *)
Definition trim (s : jsstring) : jsstring :=
  rev (drop_ws (rev (drop_ws s))).

Definition normalize (s : jsstring) : jsstring :=
  trim (replace_ws_runs false (replace_disallowed s)).

(** *** The normaliser as the specification words it

    Three steps written after the prose of the specification: replace every
    character outside alphanumerics, whitespace, [.] and [-] with a space;
    collapse consecutive whitespace to one space; trim. *)

Definition is_alnum (c : code_unit) : bool :=
  is_lower c || is_upper c || is_digit c.

Definition spec_allowed (c : code_unit) : bool :=
  is_alnum c || is_space c || (c =? 46) || (c =? 45).

Definition spec_replace (allowed : code_unit -> bool) (s : jsstring) : jsstring :=
  flat_map (fun c => if allowed c then [c] else [SP]) s.

(** A whitespace character followed by another one disappears; the last one
    of a run becomes the single space. *)
Fixpoint spec_collapse (s : jsstring) : jsstring :=
  match s with
  | [] => []
  | c :: s' =>
      if is_space c
      then match s' with
           | [] => [SP]
           | c' :: _ => if is_space c' then spec_collapse s'
                        else SP :: spec_collapse s'
           end
      else c :: spec_collapse s'
  end.

Fixpoint spec_trim_end (s : jsstring) : jsstring :=
  match s with
  | [] => []
  | c :: s' =>
      match spec_trim_end s' with
      | [] => if is_space c then [] else [c]
      | t => c :: t
      end
  end.

Definition spec_trim (s : jsstring) : jsstring := spec_trim_end (drop_ws s).

Definition spec_normalize_with (allowed : code_unit -> bool) (s : jsstring) : jsstring :=
  spec_trim (spec_collapse (spec_replace allowed s)).

(** The normaliser exactly as the specification states it. *)
Definition spec_normalize : jsstring -> jsstring := spec_normalize_with spec_allowed.

(** The same three steps with the underscore added to the kept characters. *)
Definition spec_allowed_underscore (c : code_unit) : bool :=
  spec_allowed c || (c =? 95).

(** ** Values read out of the parsed mapping *)

(** [documentType] holds [undefined], a string, a member of
    [Object.prototype] ([JSON.parse] returns ordinary objects, and the
    property read [mappings[name]] walks the prototype chain), or any other
    value: a number, a boolean, [null], an array or an object of the parsed
    text.  Of such a value the handler uses its truthiness and its conversion
    to a string in a template literal; [text = None] stands for a conversion
    that throws a TypeError (an object whose own [toString] and [valueOf] are
    not callable, or an array that holds one). *)
Inductive jsval : Type :=
| JUndefined
| JStr (s : jsstring)
| JInherited (name : jsstring)
| JOther (truth : bool) (text : option jsstring).

Definition truthy (v : jsval) : bool :=
  match v with
  | JUndefined => false
  | JStr [] => false
  | JStr (_ :: _) => true
  | JInherited _ => true
  | JOther truth _ => truth
  end.

(** The property names every ordinary object inherits. *)
Definition object_prototype_members : list jsstring :=
  map lit [ "constructor"; "__defineGetter__"; "__defineSetter__";
            "hasOwnProperty"; "__lookupGetter__"; "__lookupSetter__";
            "isPrototypeOf"; "propertyIsEnumerable"; "toString"; "valueOf";
            "__proto__"; "toLocaleString" ]%string.

(** Whether the conversion to string completes. *)
Definition converts (v : jsval) : bool :=
  match v with
  | JOther _ None => false
  | _ => true
  end.

(** Conversion to string inside a template literal (the empty string stands
    in where the conversion throws). *)
Definition to_string (v : jsval) : jsstring :=
  match v with
  | JUndefined => lit "undefined"
  | JStr s => s
  | JInherited name =>
      if str_eqb name (lit "__proto__") then lit "[object Object]"
      else lit "function "
           ++ (if str_eqb name (lit "constructor") then lit "Object" else name)
           ++ lit "() { [native code] }"
  | JOther _ (Some s) => s
  | JOther _ None => []
  end.

(** A parsed [documentMappings] of the declared type [Record<string, string>]:
    the own entries of an object whose values are all strings, in the order
    [Object.entries] enumerates them. *)
Definition mapping := list (jsstring * jsstring).

Definition own_property (m : mapping) (k : jsstring) : option jsstring :=
  option_map snd (find (fun kv => str_eqb (fst kv) k) m).

(** What a property read finds on [Object.prototype]. *)
Definition inherited_member (k : jsstring) : jsval :=
  if existsb (str_eqb k) object_prototype_members
  then JInherited k else JUndefined.

(** [mappings[k]] *)
Definition js_get (m : mapping) (k : jsstring) : jsval :=
  match own_property m k with
  | Some v => JStr v
  | None => inherited_member k
  end.

(** Any other value [JSON.parse] returns except [null] (an object with a
    value that is not a string, an array, a string, a number, a boolean), as
    the loop sees it: its own enumerable entries in the order of
    [Object.entries], and what a property read finds for any other key (a
    hidden own property such as [length], or a member of the prototype
    chain). *)
Record jsobject : Type := mkObject {
  own_entries : list (jsstring * jsval);
  other_property : jsstring -> jsval
}.

Definition plain_object (m : mapping) : jsobject :=
  mkObject (map (fun kv => (fst kv, JStr (snd kv))) m) inherited_member.

(** [mappings[k]] on any such value *)
Definition object_get (o : jsobject) (k : jsstring) : jsval :=
  match find (fun kv => str_eqb (fst kv) k) (own_entries o) with
  | Some kv => snd kv
  | None => other_property o k
  end.

(** ** Document-type resolution (lines 150-175) *)

(** The [for ... of Object.entries(mappings)] loop with its [break]. *)
Definition normalized_match (m : mapping) (originalname : jsstring) : option jsstring :=
  option_map snd
    (find (fun kv => str_eqb (normalize originalname) (normalize (fst kv))) m).

Definition resolve_document_type (m : mapping) (originalname : jsstring) (i : N) : jsval :=
  let documentType := js_get m originalname in
  let documentType :=
    if truthy documentType then documentType
    else match normalized_match m originalname with
         | Some v => JStr v
         | None => documentType
         end in
  if truthy documentType then documentType
  else JStr (lit "document_" ++ dec i).

(** The same lines over any parsed value. *)
Definition resolve_in (o : jsobject) (originalname : jsstring) (i : N) : jsval :=
  let documentType := object_get o originalname in
  let documentType :=
    if truthy documentType then documentType
    else match find (fun kv => str_eqb (normalize originalname) (normalize (fst kv)))
                    (own_entries o) with
         | Some kv => snd kv
         | None => documentType
         end in
  if truthy documentType then documentType
  else JStr (lit "document_" ++ dec i).

(** ** Uploaded files and the multer configuration (lines 11-29, 78) *)

Record File : Type := mkFile {
  fieldname : jsstring;
  originalname : jsstring;
  mimetype : jsstring;
  size : N;
  buffer : list N
}.

Definition fileSize_limit : N := 10 * 1024 * 1024.

Definition allowedTypes : list jsstring :=
  [lit "image/jpeg"; lit "image/png"; lit "application/pdf"].

(** [fileFilter]: [None] is [cb(null, true)], [Some e] is [cb(new Error(e))]. *)
Definition fileFilter (file : File) : option jsstring :=
  if existsb (str_eqb (mimetype file)) allowedTypes then None
  else Some (lit "Invalid file type. Only JPEG, PNG, and PDF files are allowed.").

(** Whether the size limit stops a part of [sz] bytes.  The multipart parser
    under multer counts the bytes of a part as they arrive: busboy 1.x stops
    a part as soon as the count reaches the limit, earlier releases only when
    it exceeds it.  The sources do not pin the version; [at_limit] says
    whether a part of exactly [fileSize] bytes is refused. *)
Definition over_limit (at_limit : bool) (sz : N) : bool :=
  (fileSize_limit <? sz) || (at_limit && (sz =? fileSize_limit)).

(** [upload.array(field, maxCount)] over the file parts of the request, in
    stream order, after multer's behaviour: a part without a filename is
    drained and ignored; a part under another field or beyond [maxCount] is
    an unexpected file; then the configured filter runs; then the size limit
    applies while the part is buffered; the first error aborts the whole
    request. *)
Fixpoint multer_array (at_limit : bool) (field : jsstring) (filesLeft : N)
         (parts : list File) : jsstring + list File :=
  match parts with
  | [] => inr []
  | f :: rest =>
      match originalname f with
      | [] => multer_array at_limit field filesLeft rest
      | _ :: _ =>
          if negb (str_eqb (fieldname f) field) || (filesLeft =? 0)
          then inl (lit "Unexpected field")
          else match fileFilter f with
               | Some e => inl e
               | None =>
                   if over_limit at_limit (size f) then inl (lit "File too large")
                   else match multer_array at_limit field (filesLeft - 1) rest with
                        | inl e => inl e
                        | inr fs => inr (f :: fs)
                        end
               end
      end
  end.

(** ** Requests and responses *)

(** What [JSON.parse(documentMappings || "{}")] makes of the form field:
    the field is missing or empty ([MfAbsent], the text ["{}"] is parsed), the
    text is not JSON ([MfInvalid], the call throws), it is the text [null],
    an object whose values are strings, or any other value. *)
Inductive mappings_field : Type :=
| MfAbsent
| MfInvalid
| MfNull
| MfObject (m : mapping)
| MfOther (o : jsobject).

Record Request : Type := mkRequest {
  req_method : jsstring;
  req_url : option jsstring;
  req_parts : list File;
  body_userId : option jsstring;
  body_businessId : option jsstring;
  body_documentMappings : mappings_field
}.

Record DocRow : Type := mkDocRow {
  doc_id : N;
  doc_business_id : jsstring;
  doc_document_type : option jsstring;
  doc_document_name : jsstring;
  doc_file_url : jsstring;
  doc_file_size_bytes : N;
  doc_verification_status : jsstring;
  doc_uploaded_at : N
}.

Record UploadedEntry : Type := mkUploadedEntry {
  up_id : N;
  up_documentType : jsval;
  up_fileName : jsstring;
  up_url : jsstring;
  up_status : jsstring;
  up_uploadedAt : N
}.

(** The body of the 200 response (lines 366-378); [errors = None] is the
    [undefined] that [res.json] leaves out. *)
Record ResultBody : Type := mkResultBody {
  success : bool;
  uploaded : list UploadedEntry;
  errors : option (list jsstring);
  allRequiredUploaded : bool;
  requiredDocuments : list jsstring;
  uploadedDocuments : list (option jsstring);
  debug_finalDatabaseCheck : option (list DocRow);
  debug_businessId : jsstring;
  debug_uploadedCount : N
}.

Inductive Response : Type :=
| JsonError (status : N) (error : jsstring) (details : option jsstring)
| JsonTest (status : N) (message : jsstring) (timestamp : N)
| JsonResult (status : N) (body : ResultBody).

(** ** The remote services and the clock *)

Record Blob : Type := mkBlob {
  blob_path : jsstring;
  blob_bytes : list N;
  blob_contentType : jsstring
}.

Record ProviderRow : Type := mkProviderRow {
  prov_user_id : jsstring;
  prov_business_id : jsstring;
  prov_provider_role : jsstring
}.

Record ProfileRow : Type := mkProfileRow {
  bp_id : jsstring;
  bp_business_type : jsstring;
  bp_verification_status : jsstring;
  bp_setup_step : N;
  bp_updated_at : N
}.

(** The payload of the insert (lines 251-258). *)
Record DocumentData : Type := mkDocumentData {
  dd_business_id : jsstring;
  dd_document_type : jsval;
  dd_document_name : jsstring;
  dd_file_url : jsstring;
  dd_file_size_bytes : N;
  dd_verification_status : jsstring
}.

(** The calls that leave the process. *)
Inductive Event : Type :=
| EvSelectProvider (userId businessId : jsstring)
| EvSelectProfile (businessId : jsstring)
| EvUpload (path : jsstring)
| EvInsertDocument (data : DocumentData)
| EvRemove (path : jsstring)
| EvSelectExisting (businessId : jsstring)
| EvUpdateSetupStep (businessId : jsstring) (step : N)
| EvSelectQualifying (businessId : jsstring)
| EvSelectAll (businessId : jsstring).

(** [w_ticks] is the time that passes before each successive reading of the
    clock; [w_faults] decides each successive remote call: [None] lets the
    service carry it out, [Some msg] makes it answer with the error [msg]
    (an exhausted list means no further fault).  The Supabase client reports
    failures in the [error] field of its result and does not throw.
    [w_at_limit] is the behaviour of the installed multipart parser at the
    size limit (see [over_limit]). *)
Record World : Type := mkWorld {
  w_supabase_url : jsstring;
  w_blobs : list Blob;
  w_documents : list DocRow;
  w_providers : list ProviderRow;
  w_profiles : list ProfileRow;
  w_next_id : N;
  w_now : N;
  w_ticks : list N;
  w_faults : list (option jsstring);
  w_trace : list Event;
  w_at_limit : bool
}.

Definition set_blobs (v : list Blob) (w : World) : World :=
  mkWorld (w_supabase_url w) v (w_documents w) (w_providers w) (w_profiles w)
          (w_next_id w) (w_now w) (w_ticks w) (w_faults w) (w_trace w)
          (w_at_limit w).

Definition set_documents (v : list DocRow) (n : N) (w : World) : World :=
  mkWorld (w_supabase_url w) (w_blobs w) v (w_providers w) (w_profiles w)
          n (w_now w) (w_ticks w) (w_faults w) (w_trace w)
          (w_at_limit w).

Definition set_profiles (v : list ProfileRow) (w : World) : World :=
  mkWorld (w_supabase_url w) (w_blobs w) (w_documents w) (w_providers w) v
          (w_next_id w) (w_now w) (w_ticks w) (w_faults w) (w_trace w)
          (w_at_limit w).

Definition set_clock (now : N) (ticks : list N) (w : World) : World :=
  mkWorld (w_supabase_url w) (w_blobs w) (w_documents w) (w_providers w)
          (w_profiles w) (w_next_id w) now ticks (w_faults w) (w_trace w)
          (w_at_limit w).

Definition set_faults (v : list (option jsstring)) (w : World) : World :=
  mkWorld (w_supabase_url w) (w_blobs w) (w_documents w) (w_providers w)
          (w_profiles w) (w_next_id w) (w_now w) (w_ticks w) v (w_trace w)
          (w_at_limit w).

Definition log_event (ev : Event) (w : World) : World :=
  mkWorld (w_supabase_url w) (w_blobs w) (w_documents w) (w_providers w)
          (w_profiles w) (w_next_id w) (w_now w) (w_ticks w) (w_faults w)
          (w_trace w ++ [ev])
          (w_at_limit w).

(** *** The state monad of the handler *)

Definition M (A : Type) : Type := World -> A * World.

Definition ret {A : Type} (a : A) : M A := fun w => (a, w).

Definition bind {A B : Type} (m : M A) (k : A -> M B) : M B :=
  fun w => let (a, w') := m w in k a w'.

Declare Scope handler_scope.
Delimit Scope handler_scope with handler.
Notation "x <- m ;; k" := (bind m (fun x => k))
  (at level 61, m at next level, right associativity) : handler_scope.
Notation "' pat <- m ;; k" := (bind m (fun x => match x with pat => k end))
  (at level 61, pat pattern, m at next level, right associativity) : handler_scope.
Local Open Scope handler_scope.

(** [Date.now()] and [new Date()] *)
Definition Date_now : M N := fun w =>
  match w_ticks w with
  | [] => (w_now w, w)
  | d :: ds => (w_now w + d, set_clock (w_now w + d) ds w)
  end.

(** A call to a remote service: it is recorded, and the next fault decides
    whether the service carries it out. *)
Definition remote_call (ev : Event) : M (option jsstring) := fun w =>
  let w1 := log_event ev w in
  match w_faults w1 with
  | [] => (None, w1)
  | f :: fs => (f, set_faults fs w1)
  end.

Definition blob_exists (path : jsstring) (w : World) : bool :=
  existsb (fun b => str_eqb (blob_path b) path) (w_blobs w).

(** *** The storage client

    [_removeEmptyFolders] of the storage client, applied to the path of an
    upload: [path.replace(/^\/|\/$/g, '').replace(/\/+/g, '/')]. *)
Definition SLASH : code_unit := 47.

Definition strip_leading_slash (s : jsstring) : jsstring :=
  match s with
  | c :: r => if c =? SLASH then r else s
  | [] => []
  end.

Fixpoint strip_trailing_slash (s : jsstring) : jsstring :=
  match s with
  | [] => []
  | c :: r =>
      match r with
      | [] => if c =? SLASH then [] else [c]
      | _ :: _ => c :: strip_trailing_slash r
      end
  end.

(** [.replace(/\/+/g, "/")], scanned like [replace_ws_runs]. *)
Fixpoint collapse_slashes (in_match : bool) (s : jsstring) : jsstring :=
  match s with
  | [] => []
  | c :: s' =>
      if c =? SLASH
      then if in_match then collapse_slashes true s'
           else SLASH :: collapse_slashes true s'
      else c :: collapse_slashes false s'
  end.

Definition removeEmptyFolders (path : jsstring) : jsstring :=
  collapse_slashes false (strip_trailing_slash (strip_leading_slash path)).

(** [storage.from("provider-documents").upload(path, bytes, {upsert: false})]:
    the error message, or the cleaned path under which the object is stored
    and which the client returns as [data.path]. *)
Definition storage_upload (path : jsstring) (bytes : list N) (contentType : jsstring)
  : M (jsstring + jsstring) :=
  f <- remote_call (EvUpload path) ;;
  match f with
  | Some msg => ret (inl msg)
  | None => fun w =>
      let cleanPath := removeEmptyFolders path in
      if blob_exists cleanPath w then (inl (lit "The resource already exists"), w)
      else (inr cleanPath,
            set_blobs (w_blobs w ++ [mkBlob cleanPath bytes contentType]) w)
  end.

(** [encodeURI]: the characters it keeps. *)
Definition uri_kept (c : code_unit) : bool :=
  is_lower c || is_upper c || is_digit c
  || existsb (N.eqb c) (lit ";/?:@&=+$,#-_.!~*'()").

Definition is_high_surrogate (c : code_unit) : bool := (55296 <=? c) && (c <=? 56319).
Definition is_low_surrogate (c : code_unit) : bool := (56320 <=? c) && (c <=? 57343).

Definition hex_digit (n : N) : code_unit := if n <? 10 then 48 + n else 55 + n.

(** [%XX] for one byte *)
Definition percent (byte : N) : jsstring :=
  [37; hex_digit (byte / 16); hex_digit (byte mod 16)].

(** The UTF-8 bytes of a code point. *)
Definition utf8 (cp : N) : list N :=
  if cp <? 128 then [cp]
  else if cp <? 2048 then [192 + cp / 64; 128 + cp mod 64]
  else if cp <? 65536
       then [224 + cp / 4096; 128 + (cp / 64) mod 64; 128 + cp mod 64]
       else [240 + cp / 262144; 128 + (cp / 4096) mod 64;
             128 + (cp / 64) mod 64; 128 + cp mod 64].

(** [encodeURI(s)]; [None] is the URIError thrown on a lone surrogate. *)
Fixpoint encodeURI (s : jsstring) : option jsstring :=
  match s with
  | [] => Some []
  | c :: r =>
      if uri_kept c then option_map (cons c) (encodeURI r)
      else if is_low_surrogate c then None
      else if is_high_surrogate c
      then match r with
           | d :: r' =>
               if is_low_surrogate d
               then option_map
                      (app (flat_map percent
                              (utf8 (65536 + (c - 55296) * 1024 + (d - 56320)))))
                      (encodeURI r')
               else None
           | [] => None
           end
      else option_map (app (flat_map percent (utf8 c))) (encodeURI r)
  end.

(** The public URL of a stored path: [encodeURI] of the storage URL, the
    bucket and the path. *)
Definition public_url (base path : jsstring) : option jsstring :=
  encodeURI (base ++ lit "/storage/v1/object/public/provider-documents/" ++ path).

(** The same URL where [encodeURI] accepts it (the empty string stands in
    where it throws). *)
Definition publicUrl_of (base path : jsstring) : jsstring :=
  match public_url base path with
  | Some url => url
  | None => []
  end.

(** [storage.from("provider-documents").getPublicUrl(path)]: built locally. *)
Definition getPublicUrl (path : jsstring) : M jsstring := fun w =>
  (publicUrl_of (w_supabase_url w) path, w).

(** [storage.from("provider-documents").remove([path])] *)
Definition storage_remove (path : jsstring) : M (jsstring + unit) :=
  f <- remote_call (EvRemove path) ;;
  match f with
  | Some msg => ret (inl msg)
  | None => fun w =>
      (inr tt,
       set_blobs (filter (fun b => negb (str_eqb (blob_path b) path)) (w_blobs w)) w)
  end.

(** What the JSON body of the insert carries for a value. *)
Definition json_string (v : jsval) : option jsstring :=
  match v with
  | JStr s => Some s
  | _ => None
  end.

(** [from("business_documents").insert(data).select().single()] *)
Definition insert_document (data : DocumentData) : M (jsstring + DocRow) :=
  f <- remote_call (EvInsertDocument data) ;;
  match f with
  | Some msg => ret (inl msg)
  | None => fun w =>
      let row := mkDocRow (w_next_id w) (dd_business_id data)
                          (json_string (dd_document_type data))
                          (dd_document_name data) (dd_file_url data)
                          (dd_file_size_bytes data) (dd_verification_status data)
                          (w_now w) in
      (inr row, set_documents (w_documents w ++ [row]) (w_next_id w + 1) w)
  end.

(** [.single()]: exactly one row, or an error. *)
Definition single {A : Type} (rows : list A) : jsstring + A :=
  match rows with
  | [r] => inr r
  | _ => inl (lit "JSON object requested, multiple (or no) rows returned")
  end.

(** The ownership lookup (lines 118-124). *)
Definition select_provider (userId businessId : jsstring) : M (jsstring + ProviderRow) :=
  f <- remote_call (EvSelectProvider userId businessId) ;;
  match f with
  | Some msg => ret (inl msg)
  | None => fun w =>
      (single (filter (fun p => str_eqb (prov_user_id p) userId
                                && str_eqb (prov_business_id p) businessId
                                && str_eqb (prov_provider_role p) (lit "owner"))
                      (w_providers w)), w)
  end.

(** The business profile lookup (lines 133-137). *)
Definition select_profile (businessId : jsstring) : M (jsstring + ProfileRow) :=
  f <- remote_call (EvSelectProfile businessId) ;;
  match f with
  | Some msg => ret (inl msg)
  | None => fun w =>
      (single (filter (fun p => str_eqb (bp_id p) businessId) (w_profiles w)), w)
  end.

Definition docs_of_business (businessId : jsstring) (docs : list DocRow) : list DocRow :=
  filter (fun d => str_eqb (doc_business_id d) businessId) docs.

(** [select("id").eq("business_id", b).limit(1)]; only [data] is read, and it
    is [null] when the call fails. *)
Definition select_existing (businessId : jsstring) : M (option (list DocRow)) :=
  f <- remote_call (EvSelectExisting businessId) ;;
  match f with
  | Some _ => ret None
  | None => fun w => (Some (firstn 1 (docs_of_business businessId (w_documents w))), w)
  end.

(** [update({setup_step, updated_at}).eq("id", b)] *)
Definition update_setup_step (businessId : jsstring) (step updated_at : N) : M unit :=
  f <- remote_call (EvUpdateSetupStep businessId step) ;;
  match f with
  | Some _ => ret tt
  | None => fun w =>
      (tt, set_profiles
             (map (fun p => if str_eqb (bp_id p) businessId
                            then mkProfileRow (bp_id p) (bp_business_type p)
                                   (bp_verification_status p) step updated_at
                            else p)
                  (w_profiles w)) w)
  end.

Definition qualifying_statuses : list jsstring :=
  [lit "pending"; lit "verified"; lit "under_review"].

(** The rows the requirement query returns (lines 332-336). *)
Definition qualifying_docs (businessId : jsstring) (docs : list DocRow) : list DocRow :=
  filter (fun d => str_eqb (doc_business_id d) businessId
                   && existsb (str_eqb (doc_verification_status d)) qualifying_statuses)
         docs.

Definition select_qualifying (businessId : jsstring) : M (option (list DocRow)) :=
  f <- remote_call (EvSelectQualifying businessId) ;;
  match f with
  | Some _ => ret None
  | None => fun w => (Some (qualifying_docs businessId (w_documents w)), w)
  end.

(** The final [select("*")] echoed in the debug field (lines 357-360). *)
Definition select_all (businessId : jsstring) : M (option (list DocRow)) :=
  f <- remote_call (EvSelectAll businessId) ;;
  match f with
  | Some _ => ret None
  | None => fun w => (Some (docs_of_business businessId (w_documents w)), w)
  end.

(** ** Per-file processing (lines 147-306) *)

(** [s.split(sep)] for a one-character separator. *)
Fixpoint split_on (sep : code_unit) (s : jsstring) : list jsstring :=
  match s with
  | [] => [[]]
  | c :: s' =>
      if c =? sep then [] :: split_on sep s'
      else match split_on sep s' with
           | [] => [[c]]
           | seg :: segs => (c :: seg) :: segs
           end
  end.

(** [file.originalname.split(".").pop()] *)
Definition file_extension (name : jsstring) : jsstring :=
  last (split_on 46 name) [].

(** [x.toFixed(2)] for the exact quotient [x = num / den]: the nearest
    multiple of 1/100, the larger one on a tie. *)
Definition hundredths (num den : N) : N := (200 * num + den) / (2 * den).

Definition toFixed2 (num den : N) : jsstring :=
  let n := hundredths num den in
  dec (n / 100) ++ lit "." ++ [48 + (n mod 100) / 10; 48 + n mod 10].

Definition MB : N := 1024 * 1024.

(** [fileSizeMB.toFixed(2)] with [fileSizeMB = file.size / (1024 * 1024)]; the
    division by a power of two is exact in double precision. *)
Definition fileSizeMB_toFixed2 (sz : N) : jsstring := toFixed2 sz MB.

(** The message of the [Error] thrown at line 187. *)
Definition size_limit_message (sz : N) : jsstring :=
  lit "File size (" ++ fileSizeMB_toFixed2 sz ++ lit " MB) exceeds the 5MB limit".

(** [filePath] of lines 191-194. *)
Definition storage_locator (businessId : jsstring) (documentType : jsval)
           (timestamp : N) (name : jsstring) : jsstring :=
  lit "provider-documents/" ++ businessId ++ lit "/"
  ++ (to_string documentType ++ lit "_" ++ dec timestamp ++ lit "." ++ file_extension name).

(** The three per-file error strings (lines 217, 279 and 303). *)
Definition upload_error (name errorMessage : jsstring) : jsstring :=
  lit "Failed to upload " ++ name ++ lit ": " ++ errorMessage.

Definition save_error (name message : jsstring) : jsstring :=
  lit "Failed to save record for " ++ name ++ lit ": " ++ message.

Definition process_error (name message : jsstring) : jsstring :=
  lit "Failed to process " ++ name ++ lit ": " ++ message.

(** [errorMessage] of lines 211-214. *)
Definition upload_error_message (sz : N) (message : jsstring) : jsstring :=
  if includes (lit "maximum allowed size") message
  then lit "File size (" ++ fileSizeMB_toFixed2 sz
       ++ lit " MB) is too large. Please upload a file smaller than 5MB."
  else message.

Definition Acc : Type := (list UploadedEntry * list jsstring)%type.

(** The [try] block of lines 181-305 for a resolved [documentType]; [acc]
    holds [uploadedDocuments] and [errors].  [url_of base path] is the public
    URL of the stored path, [None] when building it throws (the exception is
    caught at line 300 like the one of line 187). *)
Definition process_resolved (url_of : jsstring -> jsstring -> option jsstring)
           (businessId : jsstring) (documentType : jsval)
           (file : File) (acc : Acc) : M Acc :=
  let (uploadedDocuments, errors) := acc in
  if 5 * MB <? size file
  then (* the throw of line 187, caught at line 300 *)
    ret (uploadedDocuments,
         errors ++ [process_error (originalname file) (size_limit_message (size file))])
  else
    timestamp <- Date_now ;;
    let filePath := storage_locator businessId documentType timestamp (originalname file) in
    up <- storage_upload filePath (buffer file) (mimetype file) ;;
    match up with
    | inl message =>
        ret (uploadedDocuments,
             errors ++ [upload_error (originalname file)
                                     (upload_error_message (size file) message)])
    | inr path => fun w =>
        match url_of (w_supabase_url w) path with
        | None =>
            (uploadedDocuments,
             errors ++ [process_error (originalname file) (lit "URI malformed")], w)
        | Some publicUrl =>
            (ins <- insert_document
                      (mkDocumentData businessId documentType (originalname file)
                                      publicUrl (size file) (lit "pending")) ;;
             match ins with
             | inl message =>
                 _ <- storage_remove path ;;
                 ret (uploadedDocuments,
                      errors ++ [save_error (originalname file) message])
             | inr dbRecord =>
                 ret (uploadedDocuments
                      ++ [mkUploadedEntry (doc_id dbRecord) documentType
                            (originalname file) publicUrl (lit "uploaded")
                            (doc_uploaded_at dbRecord)],
                      errors)
             end) w
        end
    end.

(** One iteration of the loop for a mapping of strings and a public URL that
    [encodeURI] accepts: no exception leaves the resolution, the log line or
    [getPublicUrl]. *)
Definition process_file (businessId : jsstring) (mappings : mapping)
           (i : N) (file : File) (acc : Acc) : M Acc :=
  process_resolved (fun base path => Some (publicUrl_of base path))
                   businessId
                   (resolve_document_type mappings (originalname file) i) file acc.

(** The [for] loop from index [i] on, under the same conditions. *)
Fixpoint process_files (businessId : jsstring) (mappings : mapping)
         (i : N) (files : list File) (acc : Acc) : M Acc :=
  match files with
  | [] => ret acc
  | file :: rest =>
      acc' <- process_file businessId mappings i file acc ;;
      process_files businessId mappings (i + 1) rest acc'
  end.

(** One iteration as the handler runs it (lines 148-305), for any parsed
    value.  The log line of line 177 converts the label to a string outside
    the [try] of line 181: [inr message] is the TypeError that leaves the loop
    when the conversion throws. *)
Definition run_file (businessId : jsstring) (mappings : jsobject)
           (i : N) (file : File) (acc : Acc) : M (Acc + jsstring) :=
  let documentType := resolve_in mappings (originalname file) i in
  if converts documentType
  then acc' <- process_resolved public_url businessId documentType file acc ;;
       ret (inl acc')
  else ret (inr (lit "Cannot convert object to primitive value")).

(** The [for] loop from index [i] on. *)
Fixpoint run_files (businessId : jsstring) (mappings : jsobject)
         (i : N) (files : list File) (acc : Acc) : M (Acc + jsstring) :=
  match files with
  | [] => ret (inl acc)
  | file :: rest =>
      r <- run_file businessId mappings i file acc ;;
      match r with
      | inl acc' => run_files businessId mappings (i + 1) rest acc'
      | inr message => ret (inr message)
      end
  end.

(** ** Batch post-processing (lines 308-329) *)

Definition advance_setup_step (businessId : jsstring) (businessProfile : ProfileRow)
           (uploadedDocuments : list UploadedEntry) : M unit :=
  match uploadedDocuments with
  | [] => ret tt
  | _ :: _ =>
      existingDocs <- select_existing businessId ;;
      match existingDocs with
      | Some (_ :: _) => ret tt
      | _ =>
          now <- Date_now ;;
          update_setup_step businessId
            (N.max (if str_eqb (bp_verification_status businessProfile) (lit "pending")
                    then 2 else 1) 2)
            now
      end
  end.

(** ** The requirement check (lines 338-353) *)

Definition base_required_types : list jsstring :=
  [lit "drivers_license"; lit "proof_of_address";
   lit "professional_license"; lit "professional_certificate"].

Definition required_types (business_type : jsstring) : list jsstring :=
  if negb (str_eqb business_type (lit "sole_proprietorship"))
  then base_required_types ++ [lit "business_license"]
  else base_required_types.

(** [allDocs?.map((doc) => doc.document_type) || []] *)
Definition uploaded_types (allDocs : option (list DocRow)) : list (option jsstring) :=
  match allDocs with
  | Some docs => map doc_document_type docs
  | None => []
  end.

(** [uploadedTypes.includes(type)] *)
Definition includes_type (uploadedTypes : list (option jsstring)) (type : jsstring) : bool :=
  existsb (fun u => match u with
                    | Some s => str_eqb s type
                    | None => false
                    end) uploadedTypes.

Definition all_required_uploaded (business_type : jsstring)
           (allDocs : option (list DocRow)) : bool :=
  forallb (includes_type (uploaded_types allDocs)) (required_types business_type).

(** ** The handler (lines 57-386) *)

(** A form field that passes the [!field] test. *)
Definition present (field : option jsstring) : option jsstring :=
  match field with
  | Some (c :: s) => Some (c :: s)
  | _ => None
  end.

(** [JSON.parse] threw (lines 112-115). *)
Definition parse_failed (field : mappings_field) : bool :=
  match field with
  | MfInvalid => true
  | _ => false
  end.

(** The value the loop reads its properties from; [None] is [null], on which
    the property read of line 151 throws. *)
Definition parsed_mappings (field : mappings_field) : option jsobject :=
  match field with
  | MfAbsent => Some (plain_object [])
  | MfObject m => Some (plain_object m)
  | MfOther o => Some o
  | MfNull | MfInvalid => None
  end.

(** The message of the TypeError of a property read on [null]. *)
Definition null_read_message (key : jsstring) : jsstring :=
  lit "Cannot read properties of null (reading '" ++ key ++ lit "')".

Definition handler (req : Request) : M Response :=
  if negb (str_eqb (req_method req) (lit "POST"))
  then ret (JsonError 405 (lit "Method not allowed") None)
  else if match req_url req with
          | Some url => includes (lit "test") url
          | None => false
          end
  then now <- Date_now ;; ret (JsonTest 200 (lit "API is working") now)
  else fun w0 =>
    match multer_array (w_at_limit w0) (lit "documents") 10 (req_parts req) with
    | inl message =>
        (* the rejection of [runMiddleware], caught at line 379 *)
        (JsonError 500 (lit "Internal server error") (Some message), w0)
    | inr files =>
        match present (body_userId req), present (body_businessId req) with
        | Some userId, Some businessId =>
            match files with
            | [] => (JsonError 400 (lit "No files uploaded") None, w0)
            | first :: _ =>
                if parse_failed (body_documentMappings req)
                then (JsonError 400 (lit "Invalid document mappings") None, w0)
                else
                (prov <- select_provider userId businessId ;;
                 match prov with
                 | inl _ =>
                     ret (JsonError 404
                            (lit "Business profile not found or not owned by user") None)
                 | inr _ =>
                     prof <- select_profile businessId ;;
                     match prof with
                     | inl _ => ret (JsonError 404 (lit "Business profile not found") None)
                     | inr businessProfile =>
                         match parsed_mappings (body_documentMappings req) with
                         | None =>
                             (* the TypeError of line 151, caught at line 379 *)
                             ret (JsonError 500 (lit "Internal server error")
                                    (Some (null_read_message (originalname first))))
                         | Some mappings =>
                             looped <- run_files businessId mappings 0 files ([], []) ;;
                             match looped with
                             | inr message =>
                                 (* the TypeError of line 177, caught at line 379 *)
                                 ret (JsonError 500 (lit "Internal server error")
                                        (Some message))
                             | inl (uploadedDocuments, errors) =>
                                 _ <- advance_setup_step businessId businessProfile
                                                         uploadedDocuments ;;
                                 allDocs <- select_qualifying businessId ;;
                                 finalCheck <- select_all businessId ;;
                                 ret (JsonResult 200
                                        (mkResultBody true uploadedDocuments
                                           (match errors with
                                            | [] => None
                                            | _ :: _ => Some errors
                                            end)
                                           (all_required_uploaded
                                              (bp_business_type businessProfile) allDocs)
                                           (required_types (bp_business_type businessProfile))
                                           (uploaded_types allDocs)
                                           finalCheck businessId
                                           (N.of_nat (List.length uploadedDocuments))))
                             end
                         end
                     end
                 end) w0
            end
        | _, _ => (JsonError 400 (lit "Missing userId or businessId") None, w0)
        end
    end.

(** ** Auxiliary notions used by the statements *)

(** The labels of the batch from position [i] on all convert to strings. *)
Fixpoint labels_convert (o : jsobject) (i : N) (files : list File) : bool :=
  match files with
  | [] => true
  | file :: rest =>
      converts (resolve_in o (originalname file) i) && labels_convert o (i + 1) rest
  end.

(** The checks every request that reaches the loop has passed. *)
Definition reaches_loop (req : Request) (w : World) (files : list File)
           (businessId : jsstring) (businessProfile : ProfileRow)
           (mappings : jsobject) (w2 : World) : Prop :=
  req_method req = lit "POST"
  /\ (forall url, req_url req = Some url -> includes (lit "test") url = false)
  /\ multer_array (w_at_limit w) (lit "documents") 10 (req_parts req) = inr files
  /\ files <> []
  /\ present (body_businessId req) = Some businessId
  /\ parsed_mappings (body_documentMappings req) = Some mappings
  /\ exists userId prov w1,
       present (body_userId req) = Some userId
       /\ select_provider userId businessId w = (inr prov, w1)
       /\ select_profile businessId w1 = (inr businessProfile, w2).

(** The decimal numeral a string of digits spells. *)
Fixpoint digits_uint (s : jsstring) : option Decimal.uint :=
  match s with
  | [] => Some Decimal.Nil
  | c :: r =>
      match digits_uint r with
      | None => None
      | Some u =>
          match c - 48 with
          | 0 => if c =? 48 then Some (Decimal.D0 u) else None
          | 1 => Some (Decimal.D1 u)
          | 2 => Some (Decimal.D2 u)
          | 3 => Some (Decimal.D3 u)
          | 4 => Some (Decimal.D4 u)
          | 5 => Some (Decimal.D5 u)
          | 6 => Some (Decimal.D6 u)
          | 7 => Some (Decimal.D7 u)
          | 8 => Some (Decimal.D8 u)
          | 9 => Some (Decimal.D9 u)
          | _ => None
          end
      end
  end.

(** The number a non-empty string of decimal digits denotes. *)
Definition decimal_value (s : jsstring) : option N :=
  match s with
  | [] => None
  | _ :: _ => option_map N.of_uint (digits_uint s)
  end.

(** [text] reads as a decimal number with exactly two digits after the point
    whose value is [h] hundredths. *)
Definition shows_hundredths (text : jsstring) (h : N) : Prop :=
  exists whole a d1 d2,
    text = whole ++ lit "." ++ [48 + d1; 48 + d2]
    /\ decimal_value whole = Some a
    /\ d1 < 10 /\ d2 < 10
    /\ h = 100 * a + 10 * d1 + d2.

(** No surrogate among the code units of [s]: [encodeURI] accepts [s]. *)
Definition surrogate_free (c : code_unit) : Prop :=
  is_high_surrogate c = false /\ is_low_surrogate c = false.

Definition no_surrogate (s : jsstring) : Prop := Forall surrogate_free s.

(** A part that carries a file: its filename is not empty. *)
Definition has_filename (f : File) : bool :=
  match originalname f with
  | [] => false
  | _ :: _ => true
  end.

(** The locators handed to the object store, in call order. *)
Definition upload_paths (trace : list Event) : list jsstring :=
  flat_map (fun ev => match ev with
                      | EvUpload path => [path]
                      | _ => []
                      end) trace.


Definition setup_step_updates (trace : list Event) : list Event :=
  filter (fun ev => match ev with
                    | EvUpdateSetupStep _ _ => true
                    | _ => false
                    end) trace.

(** [tidy b s]: every whitespace of [s] is a single space that follows a
    non-whitespace character (or, when [b] is false, starts [s]). *)
Fixpoint tidy (b : bool) (s : jsstring) : Prop :=
  match s with
  | [] => True
  | c :: r =>
      if is_space c then c = SP /\ b = false /\ tidy true r
      else tidy false r
  end.

(** A persisted record of [businessId] that carries [label] and counts
    towards the requirements. *)
Definition counts_toward (businessId : jsstring) (docs : list DocRow)
           (label : jsstring) : Prop :=
  exists d, In d docs
            /\ doc_business_id d = businessId
            /\ doc_document_type d = Some label
            /\ (doc_verification_status d = lit "pending"
                \/ doc_verification_status d = lit "verified"
                \/ doc_verification_status d = lit "under_review").

(** ** Sample data for the worked cases *)

Definition sample_world : World :=
  mkWorld (lit "https://project.supabase.co") [] []
          [mkProviderRow (lit "u1") (lit "b1") (lit "owner")]
          [mkProfileRow (lit "b1") (lit "llc") (lit "pending") 1 0]
          0 1700000000000 [] [] [] true.

Definition sample_mapping : mapping :=
  [(lit "a.pdf", lit "drivers_license"); (lit "b.pdf", lit "drivers_license")].

Definition sample_pdf : File :=
  mkFile (lit "documents") (lit "a.pdf") (lit "application/pdf") 1000 [37; 80; 68; 70].

Definition second_pdf : File :=
  mkFile (lit "documents") (lit "b.pdf") (lit "application/pdf") 2000 [37; 80; 68; 70].


Definition gif_file : File :=
  mkFile (lit "documents") (lit "c.gif") (lit "image/gif") 1000 [71; 73; 70].

Definition sample_request (parts : list File) : Request :=
  mkRequest (lit "POST") (Some (lit "/api/onboarding/upload-documents")) parts
            (Some (lit "u1")) (Some (lit "b1")) (MfObject sample_mapping).


(** The same world one millisecond later. *)
Definition later_world : World := set_clock 1700000000001 [] sample_world.

(** The same world with a clock that does not advance between two readings. *)
Definition same_millisecond_world : World := set_clock 1700000000000 [0; 0] sample_world.

(** ** Notions used by the further properties *)

Definition lookup_event (ev : Event) : bool :=
  match ev with
  | EvSelectProvider _ _ | EvSelectProfile _ => true
  | _ => false
  end.

(** The remote state a request can change. *)
Definition same_store (w w' : World) : Prop :=
  w_blobs w' = w_blobs w
  /\ w_documents w' = w_documents w
  /\ w_profiles w' = w_profiles w
  /\ w_providers w' = w_providers w.


(** ** The progress bar of the onboarding page (ProviderOnboardingFlow.tsx) *)

Inductive OnboardingPhase : Type := Phase1 | Phase2 | PhaseComplete.

(** The three fields of [OnboardingState] the progress functions read; steps
    are strings (they also come from the URL and from the status endpoint). *)
Record OnboardingState : Type := mkOnboardingState {
  phase : OnboardingPhase;
  phase1Step : jsstring;
  phase2Step : jsstring
}.

Definition phase1Steps : list jsstring :=
  [lit "signup"; lit "business_info"; lit "documents"; lit "review"].

Definition phase2Steps : list jsstring :=
  [lit "welcome"; lit "business_profile"; lit "personal_profile";
   lit "business_hours"; lit "staff_management"; lit "banking_payout";
   lit "service_pricing"; lit "final_review"].

(** [Array.prototype.findIndex], counting from [i]. *)
Fixpoint findIndex_from {A : Type} (p : A -> bool) (l : list A) (i : Z) : Z :=
  match l with
  | [] => (-1)%Z
  | x :: r => if p x then i else findIndex_from p r (i + 1)%Z
  end.

Definition findIndex {A : Type} (p : A -> bool) (l : list A) : Z :=
  findIndex_from p l 0%Z.

Definition getCurrentStepIndex (st : OnboardingState) : Z :=
  match phase st with
  | Phase1 => findIndex (fun id => str_eqb id (phase1Step st)) phase1Steps
  | _ => findIndex (fun id => str_eqb id (phase2Step st)) phase2Steps
  end.

Definition getTotalSteps (st : OnboardingState) : Z :=
  match phase st with
  | Phase1 => Z.of_nat (List.length phase1Steps)
  | _ => Z.of_nat (List.length phase2Steps)
  end.

(** [Math.round((num / den) * 100)] for [num >= 0] and [den] = 4 or 8, where
    both the quotient and the product are exact: the nearest integer, the
    larger one on a tie. *)
Definition round_percent (num den : Z) : Z :=
  ((200 * num + den) / (2 * den))%Z.

Definition getProgressPercentage (st : OnboardingState) : Z :=
  round_percent (getCurrentStepIndex st + 1) (getTotalSteps st).

(** The state updates of the last steps of phase 2. *)
Definition handleIdentityVerificationComplete (prev : OnboardingState) : OnboardingState :=
  mkOnboardingState (phase prev) (phase1Step prev) (lit "bank_connection").

Definition handleBankConnectionComplete (prev : OnboardingState) : OnboardingState :=
  mkOnboardingState (phase prev) (phase1Step prev) (lit "stripe_setup").

Definition handleStripeSetupComplete (prev : OnboardingState) : OnboardingState :=
  mkOnboardingState PhaseComplete (phase1Step prev) (lit "complete").

Definition handlePhase2Complete (prev : OnboardingState) : OnboardingState :=
  mkOnboardingState PhaseComplete (phase1Step prev) (lit "complete").

(** ** The specialties of the personal profile (PersonalProfileSetup.tsx) *)

(** [addSpecialty]: the new list of specialties for the typed text; the test
    reads the rendered list, which is the list the update applies to. *)
Definition addSpecialty (newSpecialty : jsstring) (specialties : list jsstring)
  : list jsstring :=
  match trim newSpecialty with
  | [] => specialties
  | c :: t =>
      if negb (existsb (str_eqb (c :: t)) specialties)
      then specialties ++ [c :: t]
      else specialties
  end.

Definition removeSpecialty (specialty : jsstring) (specialties : list jsstring)
  : list jsstring :=
  filter (fun s => negb (str_eqb s specialty)) specialties.


(** *** More sample data *)

Definition spaced_mapping : mapping :=
  [(lit "my file.pdf", lit "proof_of_address")].

Definition empty_value_mapping : mapping := [(lit "a.pdf", [])].

(** A label with an empty folder and a space. *)
Definition slashed_mapping : mapping := [(lit "a.pdf", lit "id//front page")].

(** A batch whose second label is an object with a [toString] that is not a
    function. *)
Definition unconvertible_request : Request :=
  mkRequest (lit "POST") (Some (lit "/api/onboarding/upload-documents"))
            [sample_pdf; second_pdf] (Some (lit "u1")) (Some (lit "b1"))
            (MfOther (mkObject [(lit "a.pdf", JStr (lit "drivers_license"));
                                (lit "b.pdf", JOther true None)]
                               inherited_member)).

(** The upload of the first file is refused by the store. *)
Definition failing_upload_world : World :=
  set_faults [Some (lit "The object exceeded the maximum allowed size")] sample_world.

Definition old_blob : Blob :=
  mkBlob (lit "provider-documents/b1/proof_of_address_1600000000000.pdf")
         [37; 80; 68; 70] (lit "application/pdf").

Definition stocked_world : World := set_blobs [old_blob] sample_world.

(** A profile already at step 5, and an existence query that fails. *)
Definition advanced_profile_world : World :=
  set_faults [Some (lit "timeout")]
    (set_profiles [mkProfileRow (lit "b1") (lit "llc") (lit "approved") 5 0]
                  sample_world).

Definition base_docs : list DocRow :=
  [mkDocRow 1 (lit "b1") (Some (lit "drivers_license")) (lit "dl.pdf") [] 10
            (lit "pending") 0;
   mkDocRow 2 (lit "b1") (Some (lit "proof_of_address")) (lit "poa.pdf") [] 10
            (lit "verified") 0;
   mkDocRow 3 (lit "b1") (Some (lit "professional_license")) (lit "pl.pdf") [] 10
            (lit "under_review") 0;
   mkDocRow 4 (lit "b1") (Some (lit "professional_certificate")) (lit "pc.pdf") [] 10
            (lit "pending") 0].

Definition rejected_doc : DocRow :=
  mkDocRow 5 (lit "b1") (Some (lit "business_license")) (lit "bl.pdf") [] 10
           (lit "rejected") 0.

(** A sole proprietorship with its four documents on file, and a requirement
    query that fails. *)
Definition ready_unanswered_world : World :=
  set_faults [Some (lit "timeout")]
    (set_documents base_docs 5
       (set_profiles [mkProfileRow (lit "b1") (lit "sole_proprietorship") (lit "pending") 1 0]
                     sample_world)).

(** A sole proprietorship that only lacks its driver's license. *)
Definition almost_ready_world : World :=
  set_documents (tl base_docs) 5
    (set_profiles [mkProfileRow (lit "b1") (lit "sole_proprietorship") (lit "pending") 1 0]
                  sample_world).

Definition verification_state : OnboardingState :=
  mkOnboardingState Phase2 (lit "review") (lit "identity_verification").

(** Closing steps of the lemmas that run one primitive. *)
Ltac run_done :=
  unfold ret; eexists; eexists; split; [reflexivity|]; simpl; auto 10.
Ltac run_done1 :=
  unfold ret; eexists; split; [reflexivity|]; simpl; auto 10.

(* ================================================================== *)
(** * Part II: properties *)
(* ================================================================== *)

(** ** Strings *)

Lemma str_eqb_eq (a b : jsstring) : str_eqb a b = true <-> a = b.
Proof.
  unfold str_eqb. destruct (list_eq_dec N.eq_dec a b); split; congruence.
Qed.

Lemma str_eqb_refl (a : jsstring) : str_eqb a a = true.
Proof. now apply str_eqb_eq. Qed.

Lemma str_eqb_neq (a b : jsstring) : str_eqb a b = false <-> a <> b.
Proof.
  unfold str_eqb. destruct (list_eq_dec N.eq_dec a b); split; congruence.
Qed.

Lemma starts_with_app (p s : jsstring) : starts_with p (p ++ s) = true.
Proof.
  induction p as [|a p IH]; simpl; [reflexivity|].
  now rewrite N.eqb_refl, IH.
Qed.

Lemma includes_app (sub a b : jsstring) : includes sub (a ++ sub ++ b) = true.
Proof.
  induction a as [|c a IH]; simpl.
  - destruct (sub ++ b) eqn:E; simpl; rewrite <- E, starts_with_app; reflexivity.
  - rewrite IH. apply orb_true_r.
Qed.

(** ** The normaliser *)

Section Normalizer.

Lemma SP_space : is_space SP = true.
Proof. reflexivity. Qed.

Lemma SP_in_class : in_class SP = true.
Proof. reflexivity. Qed.

Lemma drop_ws_idem s : drop_ws (drop_ws s) = drop_ws s.
Proof.
  induction s as [|c s IH]; simpl; [reflexivity|].
  destruct (is_space c) eqn:E; [exact IH|]. simpl. now rewrite E.
Qed.

Lemma drop_ws_snoc s c :
  is_space c = false -> drop_ws (s ++ [c]) = drop_ws s ++ [c].
Proof.
  intros Hc. induction s as [|d s IH]; simpl.
  - now rewrite Hc.
  - destruct (is_space d); [exact IH | reflexivity].
Qed.

Lemma drop_ws_head s :
  match drop_ws s with
  | [] => True
  | c :: _ => is_space c = false
  end.
Proof.
  induction s as [|c s IH]; simpl; [exact I|].
  destruct (is_space c) eqn:E; [exact IH | exact E].
Qed.

Lemma drop_ws_suffix s : exists pre, s = pre ++ drop_ws s.
Proof.
  induction s as [|c s [pre IH]]; simpl.
  - now exists [].
  - destruct (is_space c).
    + exists (c :: pre). simpl. now f_equal.
    + now exists [].
Qed.

(** [trim] unfolded on the first character that stays. *)
Lemma trim_cons s :
  trim s = match drop_ws s with
           | [] => []
           | c :: r => c :: rev (drop_ws (rev r))
           end.
Proof.
  unfold trim. pose proof (drop_ws_head s) as H.
  destruct (drop_ws s) as [|c r]; [reflexivity|].
  simpl rev at 2. rewrite (drop_ws_snoc _ _ H), rev_app_distr. reflexivity.
Qed.

Lemma trim_idempotent s : trim (trim s) = trim s.
Proof.
  rewrite (trim_cons (trim s)), (trim_cons s).
  pose proof (drop_ws_head s) as H.
  destruct (drop_ws s) as [|c r]; [reflexivity|].
  simpl. rewrite H. now rewrite rev_involutive, drop_ws_idem.
Qed.

Lemma tidy_weaken b s : tidy b s -> tidy false s.
Proof.
  destruct s as [|c r]; simpl; [trivial|].
  destruct (is_space c); [|trivial]. intros (H1 & _ & H3). auto.
Qed.

Lemma tidy_replace_ws_runs b s : tidy b (replace_ws_runs b s).
Proof.
  revert b. induction s as [|c s IH]; intros b; simpl; [exact I|].
  destruct (is_space c) eqn:E.
  - destruct b.
    + apply IH.
    + simpl. auto.
  - simpl. rewrite E. apply IH.
Qed.

Lemma replace_ws_runs_tidy b s : tidy b s -> replace_ws_runs b s = s.
Proof.
  revert b. induction s as [|c s IH]; intros b; simpl; [reflexivity|].
  destruct (is_space c).
  - intros (-> & -> & H). now rewrite IH.
  - intros H. now rewrite IH.
Qed.

Lemma tidy_app_l b s t : tidy b (s ++ t) -> tidy b s.
Proof.
  revert b. induction s as [|c s IH]; intros b; simpl; [trivial|].
  destruct (is_space c).
  - intros (H1 & H2 & H3). eauto.
  - apply IH.
Qed.

Lemma tidy_app_r b s t : tidy b (s ++ t) -> tidy false t.
Proof.
  revert b. induction s as [|c s IH]; intros b; simpl.
  - apply tidy_weaken.
  - destruct (is_space c).
    + intros (_ & _ & H). eauto.
    + apply IH.
Qed.

Lemma rev_drop_ws_rev_prefix s : exists post, s = rev (drop_ws (rev s)) ++ post.
Proof.
  destruct (drop_ws_suffix (rev s)) as [pre H].
  exists (rev pre). rewrite <- rev_app_distr, <- H. now rewrite rev_involutive.
Qed.

Lemma tidy_trim s : tidy false s -> tidy false (trim s).
Proof.
  intros H. unfold trim.
  destruct (drop_ws_suffix s) as [pre Hpre].
  rewrite Hpre in H. apply tidy_app_r in H.
  destruct (rev_drop_ws_rev_prefix (drop_ws s)) as [post Hpost].
  rewrite Hpost in H. now apply tidy_app_l in H.
Qed.

Lemma replace_disallowed_fixed s :
  Forall (fun c => in_class c = true) s -> replace_disallowed s = s.
Proof.
  induction 1 as [|c s Hc _ IH]; simpl; [reflexivity|].
  now rewrite Hc, IH.
Qed.

Lemma replace_disallowed_in_class s :
  Forall (fun c => in_class c = true) (replace_disallowed s).
Proof.
  induction s as [|c s IH]; simpl; constructor; auto.
  destruct (in_class c) eqn:E; [exact E | reflexivity].
Qed.

Lemma replace_ws_runs_in_class b s :
  Forall (fun c => in_class c = true) s ->
  Forall (fun c => in_class c = true) (replace_ws_runs b s).
Proof.
  intros H. revert b. induction H as [|c s Hc _ IH]; intros b; simpl; [constructor|].
  destruct (is_space c); [destruct b|]; auto.
Qed.

Lemma drop_ws_Forall (P : code_unit -> Prop) s : Forall P s -> Forall P (drop_ws s).
Proof.
  induction 1 as [|c s Hc Hs IH]; simpl; [constructor|].
  destruct (is_space c); auto.
Qed.

Lemma trim_Forall (P : code_unit -> Prop) s : Forall P s -> Forall P (trim s).
Proof.
  intros H. unfold trim.
  apply Forall_rev, drop_ws_Forall, Forall_rev, drop_ws_Forall, H.
Qed.

(** The two renderings of each step agree. *)

Lemma spec_replace_in_class s :
  spec_replace spec_allowed_underscore s = replace_disallowed s.
Proof.
  induction s as [|c s IH]; simpl; [reflexivity|].
  rewrite IH. f_equal.
  assert (E : spec_allowed_underscore c = in_class c).
  { unfold spec_allowed_underscore, spec_allowed, in_class, is_word, is_alnum.
    destruct (is_lower c), (is_upper c), (is_digit c), (is_space c),
      (c =? 46), (c =? 45), (c =? 95); reflexivity. }
  rewrite E. destruct (in_class c); reflexivity.
Qed.

Lemma spec_collapse_space c s :
  is_space c = true -> spec_collapse (c :: s) = SP :: spec_collapse (drop_ws s).
Proof.
  intros Hc. revert c Hc. induction s as [|d s IH]; intros c Hc.
  - simpl. now rewrite Hc.
  - change (spec_collapse (c :: d :: s))
      with (if is_space c
            then if is_space d then spec_collapse (d :: s)
                 else SP :: spec_collapse (d :: s)
            else c :: spec_collapse (d :: s)).
    rewrite Hc. simpl drop_ws. destruct (is_space d) eqn:Ed.
    + now apply IH.
    + reflexivity.
Qed.

Lemma spec_collapse_other c s :
  is_space c = false -> spec_collapse (c :: s) = c :: spec_collapse s.
Proof. intros Hc. simpl. now rewrite Hc. Qed.

Lemma replace_ws_runs_spec s :
  replace_ws_runs true s = spec_collapse (drop_ws s)
  /\ replace_ws_runs false s = spec_collapse s.
Proof.
  induction s as [|c s [IH1 IH2]]; [split; reflexivity|].
  destruct (is_space c) eqn:E.
  - split.
    + simpl. now rewrite E.
    + rewrite (spec_collapse_space _ _ E). simpl. now rewrite E, IH1.
  - rewrite (spec_collapse_other _ _ E). simpl. rewrite E, IH2.
    split; [now rewrite (spec_collapse_other _ _ E) | reflexivity].
Qed.

Lemma spec_trim_end_snoc s c :
  spec_trim_end (s ++ [c]) = if is_space c then spec_trim_end s else s ++ [c].
Proof.
  induction s as [|d s IH]; simpl.
  - destruct (is_space c); reflexivity.
  - rewrite IH. destruct (is_space c) eqn:E; [reflexivity|].
    destruct (s ++ [c]) eqn:E'; [now destruct s | reflexivity].
Qed.

Lemma spec_trim_end_rev s : spec_trim_end s = rev (drop_ws (rev s)).
Proof.
  induction s as [|c s IH] using rev_ind; [reflexivity|].
  rewrite spec_trim_end_snoc, rev_app_distr. simpl.
  destruct (is_space c); [exact IH|].
  simpl. now rewrite rev_involutive.
Qed.

Lemma spec_trim_trim s : spec_trim s = trim s.
Proof. unfold spec_trim, trim. apply spec_trim_end_rev. Qed.

End Normalizer.

(** C9: for every filename, normalising twice gives the same string as
    normalising once. *)
Theorem normalize_idempotent (f : jsstring) : normalize (normalize f) = normalize f.
Proof.
  unfold normalize at 1.
  assert (Hc : Forall (fun c => in_class c = true) (normalize f)).
  { unfold normalize.
    apply trim_Forall, replace_ws_runs_in_class, replace_disallowed_in_class. }
  assert (Ht : tidy false (normalize f)).
  { unfold normalize. apply tidy_trim, tidy_replace_ws_runs. }
  rewrite (replace_disallowed_fixed _ Hc), (replace_ws_runs_tidy _ _ Ht).
  unfold normalize. apply trim_idempotent.
Qed.

(** C6 (amended): for every input string the normaliser replaces every
    character outside ASCII letters, digits, the underscore, whitespace, [.]
    and [-] with a space, collapses every run of whitespace to one space and
    trims both ends; it is a total function. *)
Theorem normalize_three_steps (s : jsstring) :
  normalize s = spec_normalize_with spec_allowed_underscore s.
Proof.
  unfold normalize, spec_normalize_with.
  rewrite spec_trim_trim, spec_replace_in_class.
  now rewrite (proj2 (replace_ws_runs_spec _)).
Qed.

(** ** Decimal digits and locators *)

Lemma uint_digits_inj u v : uint_digits u = uint_digits v -> u = v.
Proof.
  revert v. induction u; intros v H; destruct v; simpl in H;
    try discriminate; try reflexivity;
    injection H as H; f_equal; auto.
Qed.

Lemma dec_inj n m : dec n = dec m -> n = m.
Proof.
  unfold dec. intros H. apply uint_digits_inj in H.
  now apply Unsigned.to_uint_inj.
Qed.

Lemma uint_digits_are_digits u : Forall (fun c => is_digit c = true) (uint_digits u).
Proof. induction u; simpl; constructor; auto. Qed.

Lemma dec_no (sep : code_unit) n : is_digit sep = false -> ~ In sep (dec n).
Proof.
  intros Hs Hin. pose proof (uint_digits_are_digits (N.to_uint n)) as H.
  rewrite Forall_forall in H. apply H in Hin. congruence.
Qed.

(** Two strings that agree after their last separator. *)
Lemma app_sep_inj (sep : code_unit) (x y a b : jsstring) :
  ~ In sep x -> ~ In sep y ->
  a ++ sep :: x = b ++ sep :: y -> a = b /\ x = y.
Proof.
  intros Hx Hy. revert b.
  induction a as [|c a IH]; intros [|d b] H; simpl in H.
  - injection H as H. auto.
  - injection H as Hc H. subst d. exfalso. apply Hx. rewrite H.
    apply in_or_app. right. now left.
  - injection H as Hc H. subst c. exfalso. apply Hy. rewrite <- H.
    apply in_or_app. right. now left.
  - injection H as Hc H. subst d. destruct (IH _ H) as [-> ->]. auto.
Qed.

Lemma split_on_nonempty sep s : split_on sep s <> [].
Proof.
  destruct s as [|c s]; simpl; [discriminate|].
  destruct (c =? sep); [discriminate|].
  destruct (split_on sep s); discriminate.
Qed.

Lemma split_on_no_sep sep s : Forall (fun seg => ~ In sep seg) (split_on sep s).
Proof.
  induction s as [|c s IH]; simpl.
  - constructor; [intros []|constructor].
  - destruct (c =? sep) eqn:E.
    + constructor; [intros []|exact IH].
    + apply N.eqb_neq in E.
      destruct (split_on sep s) as [|seg segs].
      * constructor; [|constructor]. intros [H|[]]. congruence.
      * inversion IH as [|? ? Hseg Hsegs]; subst.
        constructor; [|exact Hsegs]. intros [H|H]; [congruence|auto].
  Qed.

Lemma file_extension_no_dot name : ~ In 46 (file_extension name).
Proof.
  unfold file_extension.
  pose proof (split_on_no_sep 46 name) as H.
  pose proof (split_on_nonempty 46 name) as Hne.
  rewrite Forall_forall in H. apply H.
  destruct (split_on 46 name) as [|seg segs]; [congruence|].
  destruct (exists_last (l := seg :: segs)) as (l' & a & E); [discriminate|].
  rewrite E, last_last. apply in_or_app. right. now left.
Qed.

Lemma storage_locator_form businessId documentType timestamp name :
  storage_locator businessId documentType timestamp name
  = lit "provider-documents" ++ lit "/" ++ businessId ++ lit "/"
    ++ to_string documentType ++ lit "_" ++ dec timestamp
    ++ lit "." ++ file_extension name.
Proof. reflexivity. Qed.

Lemma storage_locator_inj b dt1 dt2 t1 t2 n1 n2 :
  storage_locator b dt1 t1 n1 = storage_locator b dt2 t2 n2 ->
  to_string dt1 = to_string dt2 /\ t1 = t2 /\ file_extension n1 = file_extension n2.
Proof.
  unfold storage_locator. intros H.
  apply app_inv_head in H. apply app_inv_head in H. apply app_inv_head in H.
  change (lit ".") with [46] in H. change (lit "_") with [95] in H.
  assert (H' : (to_string dt1 ++ 95 :: dec t1) ++ 46 :: file_extension n1
               = (to_string dt2 ++ 95 :: dec t2) ++ 46 :: file_extension n2)
    by (rewrite <- !app_assoc; exact H).
  apply (app_sep_inj 46) in H'; try apply file_extension_no_dot.
  destruct H' as [H' He].
  apply (app_sep_inj 95) in H'; try (apply dec_no; reflexivity).
  rename H' into H0. destruct H0 as [Hd Ht]. apply dec_inj in Ht. auto.
Qed.

(** ** Document-type resolution *)

Lemma js_get_empty name :
  js_get [] name = if existsb (str_eqb name) object_prototype_members
                   then JInherited name else JUndefined.
Proof. reflexivity. Qed.

Lemma resolve_exact m name i v :
  own_property m name = Some v -> v <> [] ->
  resolve_document_type m name i = JStr v.
Proof.
  intros H Hv. unfold resolve_document_type, js_get. rewrite H.
  destruct v; [congruence | reflexivity].
Qed.

Lemma resolve_normalized m name i v :
  truthy (js_get m name) = false ->
  normalized_match m name = Some v -> v <> [] ->
  resolve_document_type m name i = JStr v.
Proof.
  intros H Hn Hv. unfold resolve_document_type. rewrite H, Hn.
  destruct v; [congruence | reflexivity].
Qed.

Lemma resolve_fallback m name i :
  truthy (js_get m name) = false ->
  match normalized_match m name with
  | Some (_ :: _) => False
  | _ => True
  end ->
  resolve_document_type m name i = JStr (lit "document_" ++ dec i).
Proof.
  intros H Hn. unfold resolve_document_type. rewrite H.
  destruct (normalized_match m name) as [[|c v]|]; simpl; try reflexivity.
  - contradiction.
  - now rewrite H.
Qed.

Lemma resolve_empty_mapping name i :
  existsb (str_eqb name) object_prototype_members = false ->
  resolve_document_type [] name i = JStr (lit "document_" ++ dec i).
Proof.
  intros H. apply resolve_fallback.
  - rewrite js_get_empty, H. reflexivity.
  - exact I.
Qed.

Lemma resolve_truthy m name i : truthy (resolve_document_type m name i) = true.
Proof.
  unfold resolve_document_type.
  destruct (truthy (js_get m name)) eqn:E; [now rewrite E|].
  destruct (normalized_match m name) as [v|].
  - destruct (truthy (JStr v)) eqn:E'; [exact E' | reflexivity].
  - rewrite E. reflexivity.
Qed.

Example resolve_scenario_first :
  resolve_document_type [(lit "a.pdf", lit "drivers_license")] (lit "a.pdf") 0
  = JStr (lit "drivers_license").
Proof. reflexivity. Qed.

Example resolve_scenario_second :
  resolve_document_type [(lit "a.pdf", lit "drivers_license")] (lit "b.png") 1
  = JStr (lit "document_1").
Proof. vm_compute. reflexivity. Qed.

(** C3: at the empty mapping a file named [constructor] at position 0 does not
    resolve to [document_0]: the property read returns the inherited member
    of [Object.prototype], which is truthy, so neither the normalised
    comparison nor the positional fallback runs. *)
Theorem resolve_inherited_member :
  resolve_document_type [] (lit "constructor") 0 = JInherited (lit "constructor")
  /\ resolve_document_type [] (lit "constructor") 0 <> JStr (lit "document_0").
Proof. split; [vm_compute; reflexivity | vm_compute; discriminate]. Qed.

(** ** The size rendering *)

Lemma hundredths_nearest num den :
  0 < den ->
  2 * den * hundredths num den <= 200 * num + den
  /\ 200 * num + den < 2 * den * (hundredths num den + 1).
Proof.
  intros H. unfold hundredths. split.
  - apply N.Div0.mul_div_le.
  - rewrite N.add_1_r. apply N.mul_succ_div_gt. lia.
Qed.

Lemma digits_uint_uint_digits u : digits_uint (uint_digits u) = Some u.
Proof. induction u; cbn [uint_digits digits_uint]; try rewrite IHu; reflexivity. Qed.

Lemma decimal_value_dec n : decimal_value (dec n) = Some n.
Proof.
  unfold decimal_value, dec.
  destruct (uint_digits (N.to_uint n)) as [|c r] eqn:E.
  - exfalso. destruct (N.to_uint n) eqn:En; try discriminate.
    pose proof (DecimalN.Unsigned.of_to n) as H. rewrite En in H.
    cbn in H. subst n. discriminate.
  - rewrite <- E, digits_uint_uint_digits. cbn [option_map].
    now rewrite DecimalN.Unsigned.of_to.
Qed.

Lemma toFixed2_shows num den : shows_hundredths (toFixed2 num den) (hundredths num den).
Proof.
  unfold toFixed2. set (n := hundredths num den).
  exists (dec (n / 100)), (n / 100), ((n mod 100) / 10), (n mod 10).
  split; [reflexivity|]. split; [apply decimal_value_dec|].
  assert (n mod 100 < 100) by (apply N.mod_lt; discriminate).
  assert (n mod 10 < 10) by (apply N.mod_lt; discriminate).
  split; [apply N.Div0.div_lt_upper_bound; lia|]. split; [assumption|].
  pose proof (N.div_mod n 100). pose proof (N.div_mod (n mod 100) 10).
  assert (E : (n mod 100) mod 10 = n mod 10).
  { change 100 with (10 * 10). rewrite N.Div0.mod_mul_r.
    rewrite (N.mul_comm 10 ((n / 10) mod 10)), N.Div0.mod_add.
    apply N.Div0.mod_mod. }
  rewrite E in *. lia.
Qed.

(** The figure printed for a size: it reads as the multiple of 1/100 nearest
    to the size in units of 2^20 bytes (the larger one on a tie). *)
Lemma size_text_spec sz :
  exists h,
    shows_hundredths (fileSizeMB_toFixed2 sz) h
    /\ 2 * 1048576 * h <= 200 * sz + 1048576
    /\ 200 * sz + 1048576 < 2 * 1048576 * (h + 1).
Proof.
  exists (hundredths sz MB). split; [apply toFixed2_shows|].
  apply (hundredths_nearest sz MB). reflexivity.
Qed.

Lemma includes_app_l sub a s : includes sub s = true -> includes sub (a ++ s) = true.
Proof.
  intros H. induction a as [|c a IH]; simpl; [exact H|].
  rewrite IH. apply orb_true_r.
Qed.

(** ** The primitives of the world *)

Section Primitives.

Variable w : World.

Lemma Date_now_frame :
  w_faults (snd (Date_now w)) = w_faults w
  /\ w_blobs (snd (Date_now w)) = w_blobs w
  /\ w_trace (snd (Date_now w)) = w_trace w
  /\ w_documents (snd (Date_now w)) = w_documents w
  /\ w_profiles (snd (Date_now w)) = w_profiles w.
Proof.
  unfold Date_now. destruct (w_ticks w); simpl; auto.
Qed.

Lemma storage_upload_run path bytes ct :
  exists r w',
    storage_upload path bytes ct w = (r, w')
    /\ w_trace w' = w_trace w ++ [EvUpload path]
    /\ w_documents w' = w_documents w
    /\ w_profiles w' = w_profiles w
    /\ w_faults w' = tl (w_faults w).
Proof.
  unfold storage_upload, bind, remote_call.
  destruct w as [url blobs docs provs profs nid now ticks faults trace]; simpl.
  destruct faults as [|[msg|] fs]; simpl;
    repeat match goal with
           | |- context [if ?c then _ else _] => destruct c
           end;
    run_done.
Qed.

Lemma insert_document_fault data msg fs :
  w_faults w = Some msg :: fs ->
  exists w',
    insert_document data w = (inl msg, w')
    /\ w_faults w' = fs
    /\ w_trace w' = w_trace w ++ [EvInsertDocument data]
    /\ w_blobs w' = w_blobs w
    /\ w_documents w' = w_documents w.
Proof.
  unfold insert_document, bind, remote_call.
  destruct w as [url blobs docs provs profs nid now ticks faults trace]; simpl.
  intros ->. simpl. run_done1.
Qed.

Lemma insert_document_run data :
  exists r w',
    insert_document data w = (r, w')
    /\ w_trace w' = w_trace w ++ [EvInsertDocument data]
    /\ w_profiles w' = w_profiles w
    /\ w_faults w' = tl (w_faults w)
    /\ match r with
       | inl _ => w_documents w' = w_documents w
       | inr row => w_documents w' = w_documents w ++ [row]
                    /\ doc_business_id row = dd_business_id data
       end.
Proof.
  unfold insert_document, bind, remote_call.
  destruct w as [url blobs docs provs profs nid now ticks faults trace]; simpl.
  destruct faults as [|[msg|] fs]; simpl; run_done.
Qed.

Lemma storage_remove_run path :
  exists r w',
    storage_remove path w = (r, w')
    /\ w_trace w' = w_trace w ++ [EvRemove path]
    /\ w_documents w' = w_documents w
    /\ w_profiles w' = w_profiles w
    /\ w_faults w' = tl (w_faults w)
    /\ w_blobs w' = match w_faults w with
                    | Some _ :: _ => w_blobs w
                    | _ => filter (fun b => negb (str_eqb (blob_path b) path))
                                  (w_blobs w)
                    end.
Proof.
  unfold storage_remove, bind, remote_call.
  destruct w as [url blobs docs provs profs nid now ticks faults trace]; simpl.
  destruct faults as [|[msg|] fs]; simpl; run_done.
Qed.

End Primitives.

Lemma getPublicUrl_run path w : getPublicUrl path w = (fst (getPublicUrl path w), w).
Proof. reflexivity. Qed.

Lemma new_events (trace tail : list Event) :
  skipn (List.length trace) (trace ++ tail) = tail.
Proof. now rewrite skipn_app, skipn_all, Nat.sub_diag. Qed.

Lemma select_provider_inv u b w r w' :
  select_provider u b w = (r, w') ->
  w_trace w' = w_trace w ++ [EvSelectProvider u b] /\ same_store w w'.
Proof.
  unfold select_provider, bind, remote_call, ret, same_store.
  destruct w as [url blobs docs provs profs nid now ticks faults trace].
  destruct faults as [|[msg|] fs]; intros H; injection H as <- <-; cbn; auto 10.
Qed.

Lemma select_profile_inv b w r w' :
  select_profile b w = (r, w') ->
  w_trace w' = w_trace w ++ [EvSelectProfile b] /\ same_store w w'.
Proof.
  unfold select_profile, bind, remote_call, ret, same_store.
  destruct w as [url blobs docs provs profs nid now ticks faults trace].
  destruct faults as [|[msg|] fs]; intros H; injection H as <- <-; cbn; auto 10.
Qed.

Lemma Date_now_same_store w : same_store w (snd (Date_now w)) /\ w_trace (snd (Date_now w)) = w_trace w.
Proof. unfold Date_now, same_store. destruct (w_ticks w); cbn; auto 10. Qed.

Lemma same_store_refl w : same_store w w.
Proof. unfold same_store. auto. Qed.

Lemma same_store_trans w1 w2 w3 : same_store w1 w2 -> same_store w2 w3 -> same_store w1 w3.
Proof. unfold same_store. intros (-> & -> & -> & ->) (-> & -> & -> & ->). auto. Qed.

Lemma select_qualifying_inv b w r w' :
  select_qualifying b w = (r, w') ->
  same_store w w'
  /\ (r = None \/ r = Some (qualifying_docs b (w_documents w))).
Proof.
  unfold select_qualifying, bind, remote_call, ret, same_store.
  destruct w as [url blobs docs provs profs nid now ticks faults trace].
  destruct faults as [|[msg|] fs]; intros H; injection H as <- <-; cbn; auto 10.
Qed.

Lemma select_all_inv b w r w' :
  select_all b w = (r, w') -> same_store w w'.
Proof.
  unfold select_all, bind, remote_call, ret, same_store.
  destruct w as [url blobs docs provs profs nid now ticks faults trace].
  destruct faults as [|[msg|] fs]; intros H; injection H as <- <-; cbn; auto 10.
Qed.


(** ** Per-file processing *)

Lemma process_files_cons b m i file rest acc w :
  process_files b m i (file :: rest) acc w
  = let (acc', w') := process_file b m i file acc w in
    process_files b m (i + 1) rest acc' w'.
Proof. reflexivity. Qed.



Lemma run_files_cons b o i file rest acc w :
  run_files b o i (file :: rest) acc w
  = if converts (resolve_in o (originalname file) i)
    then let (acc', w') :=
           process_resolved public_url b (resolve_in o (originalname file) i)
                            file acc w in
         run_files b o (i + 1) rest acc' w'
    else (inr (lit "Cannot convert object to primitive value"), w).
Proof.
  cbn [run_files]. unfold run_file, bind.
  destruct (converts (resolve_in o (originalname file) i)); [|reflexivity].
  unfold ret. destruct (process_resolved _ _ _ _ _ _) as [acc' w']. reflexivity.
Qed.

(** An iteration whose label converts is the [try] block for that label. *)
Lemma run_file_converts b o i file acc w :
  converts (resolve_in o (originalname file) i) = true ->
  run_file b o i file acc w
  = (inl (fst (process_resolved public_url b (resolve_in o (originalname file) i)
                                file acc w)),
     snd (process_resolved public_url b (resolve_in o (originalname file) i)
                           file acc w)).
Proof.
  intros H. unfold run_file, bind, ret. rewrite H.
  destruct (process_resolved _ _ _ _ _ _). reflexivity.
Qed.



(** ** The requirement check *)

Lemma includes_type_spec types label :
  includes_type types label = true <-> In (Some label) types.
Proof.
  unfold includes_type. rewrite existsb_exists. split.
  - intros ([s|] & Hin & Hs); [|discriminate].
    apply str_eqb_eq in Hs. now subst.
  - intros H. exists (Some label). split; [exact H | apply str_eqb_refl].
Qed.

Lemma qualifying_docs_spec b docs d :
  In d (qualifying_docs b docs) <->
  In d docs /\ doc_business_id d = b
  /\ (doc_verification_status d = lit "pending"
      \/ doc_verification_status d = lit "verified"
      \/ doc_verification_status d = lit "under_review").
Proof.
  unfold qualifying_docs. rewrite filter_In, andb_true_iff, str_eqb_eq.
  unfold qualifying_statuses. cbn [existsb].
  rewrite !orb_true_iff, !str_eqb_eq. intuition congruence.
Qed.

Lemma uploaded_types_counts b docs label :
  In (Some label) (uploaded_types (Some (qualifying_docs b docs)))
  <-> counts_toward b docs label.
Proof.
  unfold uploaded_types, counts_toward. rewrite in_map_iff. split.
  - intros (d & Ht & Hd). apply qualifying_docs_spec in Hd.
    exists d. intuition.
  - intros (d & Hin & Hb & Ht & Hs). exists d. split; [exact Ht|].
    apply qualifying_docs_spec. auto.
Qed.

Lemma required_types_spelled business_type :
  required_types business_type
  = [lit "drivers_license"; lit "proof_of_address";
     lit "professional_license"; lit "professional_certificate"]
    ++ (if str_eqb business_type (lit "sole_proprietorship")
        then [] else [lit "business_license"]).
Proof.
  unfold required_types.
  destruct (str_eqb business_type (lit "sole_proprietorship")); reflexivity.
Qed.

Lemma requirement_check_failed_query business_type :
  all_required_uploaded business_type None = false.
Proof.
  unfold all_required_uploaded, required_types.
  destruct (negb _); reflexivity.
Qed.

Lemma requirement_check_answered business_type businessId docs :
  all_required_uploaded business_type (Some (qualifying_docs businessId docs)) = true
  <->
  forall label, In label (required_types business_type) ->
                counts_toward businessId docs label.
Proof.
  unfold all_required_uploaded. rewrite forallb_forall.
  split; intros H label Hin; specialize (H label Hin).
  - now apply uploaded_types_counts, includes_type_spec.
  - now apply includes_type_spec, uploaded_types_counts.
Qed.

(** What the requirement query answers: the qualifying rows of the table, or
    nothing when the call fails. *)
Lemma select_qualifying_answer businessId w :
  fst (select_qualifying businessId w)
  = match w_faults w with
    | Some _ :: _ => None
    | _ => Some (qualifying_docs businessId (w_documents w))
    end.
Proof.
  unfold select_qualifying, bind, remote_call.
  destruct w as [url blobs docs provs profs nid now ticks faults trace]; simpl.
  destruct faults as [|[msg|] fs]; reflexivity.
Qed.

(** C2 (amended): the flag computed from the answer of the requirement query (lines
    332-353) is true exactly when the query is answered and every label of
    the required set is carried by a record of the business whose
    verification status is pending, verified or under_review; the required
    set is the four base labels for a sole proprietorship and those plus
    business_license for every other legal form.  When the query fails its
    data is null and the flag is false, whatever is on file. *)
Theorem requirement_evaluator_iff business_type businessId w :
  all_required_uploaded business_type (fst (select_qualifying businessId w)) = true
  <->
  (forall message rest, w_faults w <> Some message :: rest)
  /\ forall label,
       In label ([lit "drivers_license"; lit "proof_of_address";
                  lit "professional_license"; lit "professional_certificate"]
                 ++ (if str_eqb business_type (lit "sole_proprietorship")
                     then [] else [lit "business_license"])) ->
       counts_toward businessId (w_documents w) label.
Proof.
  rewrite select_qualifying_answer, <- required_types_spelled.
  destruct (w_faults w) as [|[message|] rest].
  - rewrite requirement_check_answered. split; [intros H; split|intros [_ H]; exact H].
    + discriminate.
    + exact H.
  - rewrite requirement_check_failed_query. split; [discriminate|].
    intros [H _]. exfalso. now apply (H message rest).
  - rewrite requirement_check_answered. split; [intros H; split|intros [_ H]; exact H].
    + discriminate.
    + exact H.
Qed.

(** ** The intake middleware *)

Lemma fileFilter_rejects f :
  ~ In (mimetype f) allowedTypes -> fileFilter f <> None.
Proof.
  intros H. unfold fileFilter.
  destruct (existsb (str_eqb (mimetype f)) allowedTypes) eqn:E; [|discriminate].
  apply existsb_exists in E as (t & Hin & Ht). apply str_eqb_eq in Ht.
  subst t. contradiction.
Qed.

Lemma over_limit_above at_limit sz : fileSize_limit < sz -> over_limit at_limit sz = true.
Proof.
  intros H. unfold over_limit. apply N.ltb_lt in H. now rewrite H.
Qed.

Lemma multer_array_rejects at_limit field n parts f :
  In f parts ->
  originalname f <> [] ->
  ~ In (mimetype f) allowedTypes \/ fileSize_limit < size f ->
  exists message, multer_array at_limit field n parts = inl message.
Proof.
  intros Hin Hname Hbad. revert n.
  induction parts as [|g rest IH]; intros n; [destruct Hin|].
  cbn [multer_array].
  destruct (originalname g) as [|c name] eqn:En.
  { destruct Hin as [->|Hin]; [congruence | now apply IH]. }
  destruct (negb (str_eqb (fieldname g) field) || (n =? 0)); [eauto|].
  destruct (fileFilter g) as [e|] eqn:Ef; [eauto|].
  destruct (over_limit at_limit (size g)) eqn:Es; [eauto|].
  destruct Hin as [->|Hin].
  - exfalso. destruct Hbad as [Hm|Hs].
    + now apply (fileFilter_rejects f).
    + apply (over_limit_above at_limit) in Hs. congruence.
  - destruct (IH Hin (n - 1)) as [message ->]. eauto.
Qed.

Lemma multer_array_accepts at_limit field n parts files :
  multer_array at_limit field n parts = inr files ->
  files = filter has_filename parts
  /\ Forall (fun f => In (mimetype f) allowedTypes
                      /\ over_limit at_limit (size f) = false) files.
Proof.
  revert n files. induction parts as [|g rest IH]; intros n files H.
  - injection H as <-. split; [reflexivity | constructor].
  - cbn [multer_array] in H. cbn [filter]. unfold has_filename at 1.
    destruct (originalname g) as [|c name] eqn:En; [now apply (IH n)|].
    destruct (negb (str_eqb (fieldname g) field) || (n =? 0)); [discriminate|].
    unfold fileFilter in H.
    destruct (existsb (str_eqb (mimetype g)) allowedTypes) eqn:Ef; [|discriminate].
    destruct (over_limit at_limit (size g)) eqn:Es; [discriminate|].
    destruct (multer_array at_limit field (n - 1) rest) as [e|fs] eqn:Er; [discriminate|].
    injection H as <-. destruct (IH _ _ Er) as [-> HF].
    split; [reflexivity|]. constructor; [|exact HF]. split.
    + apply existsb_exists in Ef as (t & Hin & Ht). apply str_eqb_eq in Ht.
      now subst t.
    + exact Es.
Qed.

(** C10: for a POST request that reaches the intake middleware, one file (a
    part with a filename) with a MIME type other than image/jpeg, image/png
    and application/pdf, or larger than 10 MB, makes the whole request answer
    a single top-level error (status 500) with the world untouched: no file is
    processed, whatever the other parts are. *)
Theorem intake_rejection_is_batch_fatal req w f :
  req_method req = lit "POST" ->
  (forall url, req_url req = Some url -> includes (lit "test") url = false) ->
  In f (req_parts req) ->
  originalname f <> [] ->
  (mimetype f <> lit "image/jpeg" /\ mimetype f <> lit "image/png"
   /\ mimetype f <> lit "application/pdf")
  \/ 10 * 1024 * 1024 < size f ->
  exists message,
    handler req w = (JsonError 500 (lit "Internal server error") (Some message), w).
Proof.
  intros Hm Hu Hin Hname Hbad.
  assert (Hbad' : ~ In (mimetype f) allowedTypes \/ fileSize_limit < size f).
  { destruct Hbad as [(H1 & H2 & H3)|Hs]; [left | right; exact Hs].
    intros [H|[H|[H|[]]]]; congruence. }
  destruct (multer_array_rejects (w_at_limit w) (lit "documents") 10 _ _ Hin Hname Hbad')
    as [message E].
  exists message. unfold handler.
  rewrite Hm, str_eqb_refl. cbn [negb].
  destruct (req_url req) as [url|]; [rewrite (Hu url eq_refl)|]; now rewrite E.
Qed.

(** ** What one iteration does to the world *)

Lemma process_resolved_trace url_of b dt file acc w :
  size file <= 5 * MB ->
  exists tail,
    w_trace (snd (process_resolved url_of b dt file acc w))
    = w_trace w
      ++ EvUpload (storage_locator b dt (fst (Date_now w)) (originalname file))
         :: tail.
Proof.
  intros Hsz.
  assert (Hlt : (5 * MB <? size file) = false) by (apply N.ltb_ge; exact Hsz).
  destruct acc as [u e].
  destruct (Date_now_frame w) as (_ & _ & Dt & _ & _).
  unfold process_resolved. rewrite Hlt. unfold bind.
  rewrite (surjective_pairing (Date_now w)).
  set (path := storage_locator _ _ _ _).
  destruct (storage_upload_run (snd (Date_now w)) path (buffer file) (mimetype file))
    as (r & w2 & Eu & Ut & _).
  rewrite Eu. clearbody path. destruct r as [msg|p].
  - exists []. unfold ret. cbn [snd]. now rewrite Ut, Dt.
  - destruct (url_of (w_supabase_url w2) p) as [url|].
    2:{ exists []. cbn [snd]. now rewrite Ut, Dt. }
    set (data := mkDocumentData _ _ _ _ _ _).
    destruct (insert_document_run w2 data) as (r2 & w3 & Ei & It & _).
    rewrite Ei. clearbody data. destruct r2 as [msg|row].
    + destruct (storage_remove_run w3 p) as (r3 & w4 & Er & Rt & _).
      rewrite Er. unfold ret. cbn [snd].
      exists [EvInsertDocument data; EvRemove p].
      rewrite Rt, It, Ut, Dt, <- !app_assoc. reflexivity.
    + unfold ret. cbn [snd]. exists [EvInsertDocument data].
      rewrite It, Ut, Dt, <- !app_assoc. reflexivity.
Qed.

Lemma process_file_trace b m i file acc w :
  size file <= 5 * MB ->
  exists tail,
    w_trace (snd (process_file b m i file acc w))
    = w_trace w
      ++ EvUpload (storage_locator b (resolve_document_type m (originalname file) i)
                                   (fst (Date_now w)) (originalname file))
         :: tail.
Proof. apply process_resolved_trace. Qed.

(** The locator handed to the object store has the form
    provider-documents/<business-id>/<document-type>_<timestamp>.<extension>,
    where the timestamp is the clock reading taken for that file, and two files
    whose clock readings differ get different locators, whatever their
    document types and extensions. *)
Lemma locator_form_and_distinct_timestamps b m i1 i2 f1 f2 acc1 acc2 w1 w2 :
  size f1 <= 5 * MB ->
  size f2 <= 5 * MB ->
  fst (Date_now w1) <> fst (Date_now w2) ->
  let p1 := lit "provider-documents/" ++ b ++ lit "/"
            ++ to_string (resolve_document_type m (originalname f1) i1)
            ++ lit "_" ++ dec (fst (Date_now w1))
            ++ lit "." ++ file_extension (originalname f1) in
  let p2 := lit "provider-documents/" ++ b ++ lit "/"
            ++ to_string (resolve_document_type m (originalname f2) i2)
            ++ lit "_" ++ dec (fst (Date_now w2))
            ++ lit "." ++ file_extension (originalname f2) in
  (exists tail, w_trace (snd (process_file b m i1 f1 acc1 w1))
                = w_trace w1 ++ EvUpload p1 :: tail)
  /\ (exists tail, w_trace (snd (process_file b m i2 f2 acc2 w2))
                   = w_trace w2 ++ EvUpload p2 :: tail)
  /\ p1 <> p2.
Proof.
  intros H1 H2 Hts p1 p2. split; [|split].
  - exact (process_file_trace b m i1 f1 acc1 w1 H1).
  - exact (process_file_trace b m i2 f2 acc2 w2 H2).
  - intros E. apply Hts.
    exact (proj1 (proj2 (storage_locator_inj b _ _ _ _ _ _ E))).
Qed.

(** ** One outcome per file *)

Lemma process_resolved_outcome url_of b dt file u e w :
  let r := process_resolved url_of b dt file (u, e) w in
  (exists entry, fst (fst r) = u ++ [entry] /\ snd (fst r) = e)
  \/ (exists err, fst (fst r) = u /\ snd (fst r) = e ++ [err]).
Proof.
  unfold process_resolved.
  destruct (5 * MB <? size file); [right; eexists; split; reflexivity|].
  unfold bind. destruct (Date_now w) as [ts w1].
  destruct (storage_upload _ _ _ w1) as [[msg|p] w2].
  - right. eexists. split; reflexivity.
  - destruct (url_of (w_supabase_url w2) p) as [url|].
    2:{ right. eexists. split; reflexivity. }
    destruct (insert_document _ w2) as [[msg|row] w3].
    + destruct (storage_remove p w3) as [r3 w4].
      right. eexists. split; reflexivity.
    + left. eexists. split; reflexivity.
Qed.

Lemma process_file_outcome b m i file u e w :
  let r := process_file b m i file (u, e) w in
  (exists entry, fst (fst r) = u ++ [entry] /\ snd (fst r) = e)
  \/ (exists err, fst (fst r) = u /\ snd (fst r) = e ++ [err]).
Proof. apply process_resolved_outcome. Qed.

Lemma process_files_outcome b m files : forall i u e w,
  let r := process_files b m i files (u, e) w in
  (List.length (fst (fst r)) + List.length (snd (fst r))
   = List.length u + List.length e + List.length files)%nat.
Proof.
  induction files as [|f rest IH]; intros i u e w.
  - cbn. lia.
  - cbv zeta. rewrite process_files_cons.
    pose proof (process_file_outcome b m i f u e w) as H. cbv zeta in H.
    destruct (process_file b m i f (u, e) w) as [[u' e'] w'].
    cbn [fst snd] in H. specialize (IH (i + 1) u' e' w'). cbv zeta in IH.
    rewrite IH. cbn [List.length].
    destruct H as [(x & -> & ->)|(x & -> & ->)]; rewrite length_app; cbn; lia.
Qed.

(** *** The loop as the handler runs it *)



(** ** The handler, path by path *)


(** Every run of the handler is of one of three kinds: it ends before the
    loop, with an error or the test answer, having made at most the two
    lookups; the loop is left by an exception; or the loop completes and the
    result is built. *)
Lemma handler_cases req w :
  (match fst (handler req w) with
   | JsonResult _ _ => False
   | _ => True
   end
   /\ same_store w (snd (handler req w))
   /\ forallb lookup_event
        (skipn (List.length (w_trace w)) (w_trace (snd (handler req w)))) = true)
  \/ (exists files businessId businessProfile mappings w2 message,
        reaches_loop req w files businessId businessProfile mappings w2
        /\ run_files businessId mappings 0 files ([], []) w2
           = (inr message, snd (handler req w))
        /\ fst (handler req w)
           = JsonError 500 (lit "Internal server error") (Some message))
  \/ (exists files businessId businessProfile mappings w2 u e w3 w4 allDocs w5 finalCheck,
        reaches_loop req w files businessId businessProfile mappings w2
        /\ run_files businessId mappings 0 files ([], []) w2 = (inl (u, e), w3)
        /\ advance_setup_step businessId businessProfile u w3 = (tt, w4)
        /\ select_qualifying businessId w4 = (allDocs, w5)
        /\ select_all businessId w5 = (finalCheck, snd (handler req w))
        /\ fst (handler req w)
           = JsonResult 200
               (mkResultBody true u
                  (match e with
                   | [] => None
                   | _ :: _ => Some e
                   end)
                  (all_required_uploaded (bp_business_type businessProfile) allDocs)
                  (required_types (bp_business_type businessProfile))
                  (uploaded_types allDocs) finalCheck businessId
                  (N.of_nat (List.length u)))).
Proof.
  assert (H0 : same_store w w
               /\ forallb lookup_event (skipn (List.length (w_trace w)) (w_trace w)) = true).
  { split; [apply same_store_refl | now rewrite skipn_all]. }
  unfold handler.
  destruct (str_eqb (req_method req) (lit "POST")) eqn:Em; cbn [negb];
    [|left; split; [exact I | exact H0]].
  apply str_eqb_eq in Em.
  destruct (match req_url req with Some url => includes (lit "test") url | None => false end)
    eqn:Eu.
  { left. unfold bind. destruct (Date_now_same_store w) as [Hs Ht].
    destruct (Date_now w) as [ts w1]. cbn [fst snd ret] in *.
    split; [exact I|]. split; [exact Hs|]. now rewrite Ht, skipn_all. }
  assert (Hurl : forall url, req_url req = Some url -> includes (lit "test") url = false).
  { intros url E. now rewrite E in Eu. }
  destruct (multer_array (w_at_limit w) (lit "documents") 10 (req_parts req))
    as [msg|files] eqn:Emul; [left; split; [exact I | exact H0]|].
  destruct (present (body_userId req)) as [userId|] eqn:Eui;
    [|left; split; [exact I | exact H0]].
  destruct (present (body_businessId req)) as [businessId|] eqn:Ebi;
    [|left; split; [exact I | exact H0]].
  destruct files as [|f0 files']; [left; split; [exact I | exact H0]|].
  destruct (parse_failed (body_documentMappings req)) eqn:Epf;
    [left; split; [exact I | exact H0]|].
  unfold bind.
  destruct (select_provider userId businessId w) as [[e|prov] w1] eqn:Ep;
    destruct (select_provider_inv _ _ _ _ _ Ep) as [Pt Ps].
  { left. cbn [fst snd ret]. split; [exact I|]. split; [exact Ps|].
    now rewrite Pt, new_events. }
  destruct (select_profile businessId w1) as [[e|bp] w2] eqn:Ef;
    destruct (select_profile_inv _ _ _ _ Ef) as [Ft Fs].
  { left. cbn [fst snd ret]. split; [exact I|].
    split; [exact (same_store_trans _ _ _ Ps Fs)|].
    now rewrite Ft, Pt, <- app_assoc, new_events. }
  destruct (parsed_mappings (body_documentMappings req)) as [o|] eqn:Eo.
  2:{ left. cbn [fst snd ret]. split; [exact I|].
      split; [exact (same_store_trans _ _ _ Ps Fs)|].
      now rewrite Ft, Pt, <- app_assoc, new_events. }
  assert (Hreach : reaches_loop req w (f0 :: files') businessId bp o w2).
  { unfold reaches_loop. repeat split; try assumption; try discriminate.
    exists userId, prov, w1. auto. }
  destruct (run_files businessId o 0 (f0 :: files') ([], []) w2)
    as [[[u e]|msg] w3] eqn:Er.
  - right. right.
    destruct (advance_setup_step businessId bp u w3) as [[] w4] eqn:Ea.
    destruct (select_qualifying businessId w4) as [allDocs w5] eqn:Eq.
    destruct (select_all businessId w5) as [finalCheck w6] eqn:Eall.
    cbn [fst snd ret].
    exists (f0 :: files'), businessId, bp, o, w2, u, e, w3, w4, allDocs, w5, finalCheck.
    split; [exact Hreach|]. repeat split; assumption || reflexivity.
  - right. left. cbn [fst snd ret].
    exists (f0 :: files'), businessId, bp, o, w2, msg. auto.
Qed.


(** ** The first-upload check *)

Lemma setup_step_updates_app t1 t2 :
  setup_step_updates (t1 ++ t2) = setup_step_updates t1 ++ setup_step_updates t2.
Proof. apply filter_app. Qed.

Lemma docs_of_business_app b d1 d2 :
  docs_of_business b (d1 ++ d2) = docs_of_business b d1 ++ docs_of_business b d2.
Proof. apply filter_app. Qed.

Lemma process_resolved_documents url_of b dt file u e w :
  let r := process_resolved url_of b dt file (u, e) w in
  w_profiles (snd r) = w_profiles w
  /\ setup_step_updates (w_trace (snd r)) = setup_step_updates (w_trace w)
  /\ exists extra,
       w_documents (snd r) = w_documents w ++ extra
       /\ (fst (fst r) = u \/ docs_of_business b extra <> []).
Proof.
  unfold process_resolved.
  destruct (5 * MB <? size file).
  { cbn. repeat split; trivial. exists []. rewrite app_nil_r. auto. }
  destruct (Date_now_frame w) as (_ & _ & Dt & Dd & Dp).
  unfold bind. rewrite (surjective_pairing (Date_now w)).
  set (path := storage_locator _ _ _ _). clearbody path.
  destruct (storage_upload_run (snd (Date_now w)) path (buffer file) (mimetype file))
    as (r & w2 & Eu & Ut & Ud & Up & _).
  rewrite Eu. destruct r as [msg|p].
  - unfold ret. cbn [fst snd]. rewrite Up, Dp, Ut, Dt, Ud, Dd, setup_step_updates_app.
    cbn. rewrite app_nil_r. repeat split; trivial.
    exists []. rewrite app_nil_r. auto.
  - destruct (url_of (w_supabase_url w2) p) as [url|].
    2:{ cbn [fst snd]. rewrite Up, Dp, Ut, Dt, Ud, Dd, setup_step_updates_app.
        cbn. rewrite app_nil_r. repeat split; trivial.
        exists []. rewrite app_nil_r. auto. }
    set (data := mkDocumentData b _ _ _ _ _).
    destruct (insert_document_run w2 data) as (r2 & w3 & Ei & It & Ip & _ & Id).
    rewrite Ei. destruct r2 as [msg|row].
    + destruct (storage_remove_run w3 p) as (r3 & w4 & Er & Rt & Rd & Rp & _).
      rewrite Er. unfold ret. cbn [fst snd].
      rewrite Rp, Ip, Up, Dp, Rt, It, Ut, Dt, Rd, Id, Ud, Dd, !setup_step_updates_app.
      cbn. rewrite !app_nil_r. repeat split; trivial.
      exists []. rewrite app_nil_r. auto.
    + destruct Id as [Id Hb]. unfold ret. cbn [fst snd].
      rewrite Ip, Up, Dp, It, Ut, Dt, Id, Ud, Dd, !setup_step_updates_app.
      cbn. rewrite !app_nil_r. repeat split; trivial.
      exists [row]. split; [reflexivity|]. right.
      unfold docs_of_business. cbn [filter]. rewrite Hb. subst data.
      cbn [dd_business_id]. rewrite str_eqb_refl. discriminate.
Qed.

Lemma process_file_documents b m i file u e w :
  let r := process_file b m i file (u, e) w in
  w_profiles (snd r) = w_profiles w
  /\ setup_step_updates (w_trace (snd r)) = setup_step_updates (w_trace w)
  /\ exists extra,
       w_documents (snd r) = w_documents w ++ extra
       /\ (fst (fst r) = u \/ docs_of_business b extra <> []).
Proof. apply process_resolved_documents. Qed.

Lemma process_files_documents b m files : forall i u e w,
  let r := process_files b m i files (u, e) w in
  w_profiles (snd r) = w_profiles w
  /\ setup_step_updates (w_trace (snd r)) = setup_step_updates (w_trace w)
  /\ exists extra,
       w_documents (snd r) = w_documents w ++ extra
       /\ (fst (fst r) = u \/ docs_of_business b extra <> []).
Proof.
  induction files as [|f rest IH]; intros i u e w.
  - cbn. repeat split; trivial. exists []. rewrite app_nil_r. auto.
  - cbv zeta. rewrite process_files_cons.
    pose proof (process_file_documents b m i f u e w) as H. cbv zeta in H.
    destruct (process_file b m i f (u, e) w) as [[u' e'] w'].
    cbn [fst snd] in H. destruct H as (Hp & Ht & x1 & Hd & Hu).
    specialize (IH (i + 1) u' e' w'). cbv zeta in IH.
    destruct IH as (Hp' & Ht' & x2 & Hd' & Hu').
    rewrite Hp', Hp, Ht', Ht, Hd', Hd. repeat split; trivial.
    exists (x1 ++ x2). rewrite app_assoc. split; [reflexivity|].
    rewrite docs_of_business_app.
    destruct Hu' as [->|Hx2].
    + destruct Hu as [->|Hx1]; [now left|].
      right. intros E. apply app_eq_nil in E. tauto.
    + right. intros E. apply app_eq_nil in E. tauto.
Qed.

Lemma select_existing_ok b w :
  hd None (w_faults w) = None ->
  exists w',
    select_existing b w = (Some (firstn 1 (docs_of_business b (w_documents w))), w')
    /\ w_profiles w' = w_profiles w
    /\ w_trace w' = w_trace w ++ [EvSelectExisting b].
Proof.
  unfold select_existing, bind, remote_call.
  destruct w as [url blobs docs provs profs nid now ticks faults trace]; simpl.
  destruct faults as [|[msg|] fs]; simpl; intros H; try discriminate; run_done1.
Qed.

(** Whenever a file of the batch was persisted and the existence query is
    answered, the profile is left alone. *)
(** X16: As the code is written, whenever at least one file of the batch was
    persisted and the existence query that follows is answered, no setup-step
    update is issued and the business profiles are left unchanged (the query
    finds the record just inserted). *)
Lemma first_upload_never_advances b m bp files w :
  let r := process_files b m 0 files ([], []) w in
  fst (fst r) <> [] ->
  hd None (w_faults (snd r)) = None ->
  let w' := snd (advance_setup_step b bp (fst (fst r)) (snd r)) in
  w_profiles w' = w_profiles w
  /\ setup_step_updates (w_trace w') = setup_step_updates (w_trace w).
Proof.
  pose proof (process_files_documents b m files 0 [] [] w) as H. cbv zeta in H.
  cbv zeta. destruct (process_files b m 0 files ([], []) w) as [[u e] w1].
  cbn [fst snd] in *. destruct H as (Hp & Ht & extra & Hd & Hu).
  intros Hne Hf. destruct Hu as [->|Hx]; [congruence|].
  destruct u as [|u0 u']; [congruence|].
  unfold advance_setup_step, bind.
  destruct (select_existing_ok b w1 Hf) as (w2 & Es & Sp & St).
  rewrite Es, Hd, docs_of_business_app.
  destruct (docs_of_business b (w_documents w) ++ docs_of_business b extra) eqn:E.
  { apply app_eq_nil in E. tauto. }
  cbn [firstn]. unfold ret. cbn [snd].
  rewrite Sp, Hp, St, setup_step_updates_app, Ht. cbn. now rewrite app_nil_r.
Qed.

(** C1: a business without any document uploads one file, which is persisted;
    the existence query issued after the insert finds that very record, so no
    update of the setup step is issued and the step stays at 1. *)
Theorem first_upload_leaves_setup_step :
  let r := handler (sample_request [sample_pdf]) sample_world in
  docs_of_business (lit "b1") (w_documents sample_world) = []
  /\ map bp_setup_step (w_profiles sample_world) = [1]
  /\ (exists body, fst r = JsonResult 200 body
                   /\ List.length (uploaded body) = 1%nat
                   /\ errors body = None)
  /\ map bp_setup_step (w_profiles (snd r)) = [1]
  /\ setup_step_updates (w_trace (snd r)) = [].
Proof.
  vm_compute. repeat split. eexists. repeat split.
Qed.


(** ** Worked cases *)

(** C6, as the specification words it, fails on an underscore: the code keeps
    it, the three steps of the specification turn it into a space. *)
Lemma normalize_keeps_underscore :
  normalize (lit "a_b") = lit "a_b"
  /\ normalize (lit "a_b") <> spec_normalize (lit "a_b").
Proof. split; vm_compute; [reflexivity | discriminate]. Qed.

(** C2, as stated, fails when the requirement query is not answered: every
    required label is on file with a qualifying status, and the flag is
    false. *)
Lemma failed_query_reports_not_ready :
  (forall label,
      In label [lit "drivers_license"; lit "proof_of_address";
                lit "professional_license"; lit "professional_certificate"] ->
      counts_toward (lit "b1") (w_documents ready_unanswered_world) label)
  /\ all_required_uploaded (lit "sole_proprietorship")
       (fst (select_qualifying (lit "b1") ready_unanswered_world)) = false.
Proof.
  split; [|vm_compute; reflexivity].
  apply (requirement_check_answered (lit "sole_proprietorship") (lit "b1")).
  vm_compute. reflexivity.
Qed.


(** C8: two files of one batch that resolve to the same type and extension and
    whose clock readings fall in the same millisecond are handed to the
    object store under the same locator; in this run the first one is stored
    and the second write is refused. *)
Theorem same_millisecond_same_locator :
  let r := handler (sample_request [sample_pdf; second_pdf]) same_millisecond_world in
  upload_paths (w_trace (snd r))
  = [lit "provider-documents/b1/drivers_license_1700000000000.pdf";
     lit "provider-documents/b1/drivers_license_1700000000000.pdf"]
  /\ ~ NoDup (upload_paths (w_trace (snd r)))
  /\ exists body,
       fst r = JsonResult 200 body
       /\ map up_fileName (uploaded body) = [lit "a.pdf"]
       /\ errors body
          = Some [lit "Failed to upload b.pdf: The resource already exists"].
Proof.
  vm_compute. split; [reflexivity|]. split.
  - intros H. inversion H as [|x l Hx Hl]. apply Hx. now left.
  - eexists. repeat split.
Qed.




Lemma intake_rejection_is_batch_fatal_witness :
  In gif_file [sample_pdf; gif_file]
  /\ originalname gif_file <> []
  /\ exists message,
       handler (sample_request [sample_pdf; gif_file]) sample_world
       = (JsonError 500 (lit "Internal server error") (Some message), sample_world).
Proof.
  split; [right; now left|]. split; [discriminate|].
  apply (intake_rejection_is_batch_fatal (sample_request [sample_pdf; gif_file])
           sample_world gif_file).
  - reflexivity.
  - intros url H. injection H as <-. vm_compute. reflexivity.
  - right. now left.
  - discriminate.
  - left. vm_compute. repeat split; discriminate.
Defined.

(* ================================================================== *)
(** * Part III: further properties *)
(* ================================================================== *)

(** ** The shape of a normalised name *)

Lemma tidy_space_is_SP b s :
  tidy b s -> Forall (fun c => is_space c = true -> c = SP) s.
Proof.
  revert b. induction s as [|c s IH]; intros b H; constructor.
  - simpl in H. destruct (is_space c); [intros _; apply H | discriminate].
  - simpl in H. destruct (is_space c); [apply (IH true), H | apply (IH false), H].
Qed.

Lemma tidy_no_double_space b a r : ~ tidy b (a ++ SP :: SP :: r).
Proof.
  intros H. apply tidy_app_r in H. simpl in H.
  destruct H as (_ & _ & _ & H & _). discriminate.
Qed.

Lemma trim_no_leading s c r : trim s = c :: r -> is_space c = false.
Proof.
  rewrite trim_cons. pose proof (drop_ws_head s) as H.
  destruct (drop_ws s) as [|d t]; [discriminate|].
  intros E. injection E as <- _. exact H.
Qed.

Lemma trim_no_trailing s r c : trim s = r ++ [c] -> is_space c = false.
Proof.
  unfold trim. intros E.
  pose proof (drop_ws_head (rev (drop_ws s))) as H.
  apply (f_equal (@rev _)) in E. rewrite rev_involutive, rev_app_distr in E.
  simpl in E. rewrite E in H. exact H.
Qed.

(** X1: A normalized filename contains only ASCII letters, digits, underscore,
    '.', '-' and the plain space; it never has two spaces in a row and never
    starts or ends with a space. *)
Theorem normalize_shape (s : jsstring) :
  Forall (fun c => is_word c = true \/ c = 46 \/ c = 45 \/ c = SP) (normalize s)
  /\ (forall a r, normalize s <> a ++ SP :: SP :: r)
  /\ (forall r, normalize s <> SP :: r)
  /\ (forall r, normalize s <> r ++ [SP]).
Proof.
  assert (Hc : Forall (fun c => in_class c = true) (normalize s)).
  { unfold normalize.
    apply trim_Forall, replace_ws_runs_in_class, replace_disallowed_in_class. }
  assert (Ht : tidy false (normalize s)).
  { unfold normalize. apply tidy_trim, tidy_replace_ws_runs. }
  split; [|split; [|split]].
  - pose proof (tidy_space_is_SP _ _ Ht) as Hs.
    rewrite Forall_forall in *. intros c Hin.
    specialize (Hc c Hin). specialize (Hs c Hin).
    unfold in_class in Hc.
    destruct (is_word c); [now left|].
    destruct (is_space c); [right; right; right; now apply Hs|].
    simpl in Hc. apply orb_true_iff in Hc as [H|H]; apply N.eqb_eq in H; auto.
  - intros a r E. rewrite E in Ht. exact (tidy_no_double_space _ _ _ Ht).
  - intros r E. apply trim_no_leading in E. discriminate.
  - intros r E. apply trim_no_trailing in E. discriminate.
Qed.

Lemma drop_ws_nil_iff s : drop_ws s = [] <-> Forall (fun c => is_space c = true) s.
Proof.
  induction s as [|c s IH]; simpl.
  - split; [constructor | reflexivity].
  - destruct (is_space c) eqn:E.
    + rewrite IH. split; [now constructor | now inversion 1].
    + split; [discriminate | inversion 1; congruence].
Qed.

Lemma replace_ws_runs_all_space b s :
  Forall (fun c => is_space c = true) (replace_ws_runs b s)
  <-> Forall (fun c => is_space c = true) s.
Proof.
  revert b. induction s as [|c s IH]; intros b; simpl; [tauto|].
  destruct (is_space c) eqn:E.
  - destruct b.
    + rewrite IH. split; [now constructor | now inversion 1].
    + split.
      * inversion 1; subst. constructor; [exact E | now apply (IH true)].
      * inversion 1; subst. constructor; [reflexivity | now apply IH].
  - split; inversion 1; congruence.
Qed.

(** X2: The normalizer returns the empty string exactly when every character of
    the input is whitespace or lies outside the class the allowed class; so
    all names made only of such characters normalize to the same (empty)
    string and match each other. *)
Theorem normalize_empty_iff (s : jsstring) :
  normalize s = [] <-> Forall (fun c => is_space c = true \/ in_class c = false) s.
Proof.
  unfold normalize. rewrite trim_cons.
  transitivity (drop_ws (replace_ws_runs false (replace_disallowed s)) = []).
  { destruct (drop_ws _); split; congruence. }
  rewrite drop_ws_nil_iff, replace_ws_runs_all_space.
  unfold replace_disallowed. rewrite Forall_map.
  split; intros H; rewrite Forall_forall in *; intros c Hin; specialize (H c Hin).
  - destruct (in_class c); auto.
  - destruct (in_class c) eqn:E; [|reflexivity].
    destruct H; [assumption | discriminate].
Qed.

(** ** More on the resolution *)

Lemma find_plain (p : jsstring -> bool) (m : mapping) :
  find (fun kv : jsstring * jsval => p (fst kv))
       (map (fun kv => (fst kv, JStr (snd kv))) m)
  = option_map (fun kv => (fst kv, JStr (snd kv)))
               (find (fun kv : jsstring * jsstring => p (fst kv)) m).
Proof.
  induction m as [|[k v] m IH]; [reflexivity|].
  cbn [map find fst snd]. destruct (p k); [reflexivity | exact IH].
Qed.

(** On an object whose values are strings the general resolution is the one
    for mappings. *)
Lemma resolve_in_plain m name i :
  resolve_in (plain_object m) name i = resolve_document_type m name i.
Proof.
  unfold resolve_in, resolve_document_type, object_get, js_get, own_property,
    normalized_match, plain_object.
  cbn [own_entries other_property].
  rewrite (find_plain (fun k => str_eqb k name)),
          (find_plain (fun k => str_eqb (normalize name) (normalize k))).
  destruct (find (fun kv => str_eqb (fst kv) name) m) as [[k v]|];
    destruct (find (fun kv => str_eqb (normalize name) (normalize (fst kv))) m)
      as [[k' v']|]; reflexivity.
Qed.

Lemma resolve_in_truthy o name i : truthy (resolve_in o name i) = true.
Proof.
  unfold resolve_in.
  destruct (truthy (object_get o name)) eqn:E; [now rewrite E|].
  destruct (find _ (own_entries o)) as [kv|].
  - destruct (truthy (snd kv)) eqn:E'; [exact E' | reflexivity].
  - rewrite E. reflexivity.
Qed.

(** X3: Document-type resolution always ends with a truthy value, for every
    parsed value, filename and position.  When the values of the mapping are
    strings, the string rendering of the label (the one used in the storage
    locator) is not empty; a value that is not a string can be truthy and
    still render as the empty string, as an empty array does. *)
Theorem resolve_label_nonempty o m name i :
  truthy (resolve_in o name i) = true
  /\ to_string (resolve_in (plain_object m) name i) <> []
  /\ to_string (resolve_in (mkObject [(name, JOther true (Some []))] inherited_member)
                           name i) = [].
Proof.
  split; [apply resolve_in_truthy|]. split.
  - rewrite resolve_in_plain.
    pose proof (resolve_truthy m name i) as H.
    assert (Hs : exists v, resolve_document_type m name i = v
                           /\ match v with JOther _ _ => False | _ => True end).
    { eexists. split; [reflexivity|].
      unfold resolve_document_type, js_get, inherited_member.
      destruct (own_property m name) as [[|c v]|];
        destruct (normalized_match m name) as [[|c' v']|];
        destruct (existsb (str_eqb name) object_prototype_members); exact I. }
    destruct Hs as (v & E & Hv). rewrite E in *. clear E.
    destruct v as [|s|n|t x]; simpl in *.
    + discriminate.
    + destruct s; [discriminate H | discriminate].
    + destruct (str_eqb n (lit "__proto__")); discriminate.
    + contradiction.
  - unfold resolve_in, object_get. cbn [own_entries find fst snd].
    rewrite str_eqb_refl. reflexivity.
Qed.

(** X4: When the exact lookup yields nothing truthy for two filenames, resolution
    depends on a filename only through its normalized form: two filenames with
    the same normalized form resolve to the same document type at the same
    position. *)
Theorem resolve_by_normal_form m name1 name2 i :
  truthy (js_get m name1) = false ->
  truthy (js_get m name2) = false ->
  normalize name1 = normalize name2 ->
  resolve_document_type m name1 i = resolve_document_type m name2 i.
Proof.
  intros H1 H2 E. unfold resolve_document_type, normalized_match.
  rewrite H1, H2, E.
  destruct (find _ m) as [[k v]|]; simpl.
  - reflexivity.
  - now rewrite H1, H2.
Qed.

(** X5: If the exact lookup is falsy (no key, or a key mapped to the empty string)
    and every mapping key whose normalized form equals the file's has an empty
    value, the file resolves to document_<i>; an empty-string mapping value
    therefore behaves like no mapping. *)
Theorem resolve_falls_back m name i :
  truthy (js_get m name) = false ->
  (forall k v, In (k, v) m -> normalize k = normalize name -> v = []) ->
  resolve_document_type m name i = JStr (lit "document_" ++ dec i).
Proof.
  intros H Hm. apply resolve_fallback; [exact H|].
  unfold normalized_match.
  destruct (find _ m) as [[k v]|] eqn:E; simpl; [|exact I].
  apply find_some in E as [Hin Hk]. simpl in Hk. apply str_eqb_eq in Hk.
  rewrite (Hm k v Hin (eq_sym Hk)). exact I.
Qed.

(** X6: With an empty mapping, two files at different positions (whose names are
    not members of Object.prototype) never get the same fallback label, even
    when they have the same filename. *)
Theorem fallback_labels_distinct name1 name2 i j :
  existsb (str_eqb name1) object_prototype_members = false ->
  existsb (str_eqb name2) object_prototype_members = false ->
  i <> j ->
  resolve_document_type [] name1 i <> resolve_document_type [] name2 j.
Proof.
  intros H1 H2 Hij.
  rewrite (resolve_empty_mapping _ _ H1), (resolve_empty_mapping _ _ H2).
  intros E.
  assert (E' : lit "document_" ++ dec i = lit "document_" ++ dec j) by congruence.
  apply app_inv_head, dec_inj in E'. contradiction.
Qed.

(** ** The extension of a filename *)

Lemma split_on_sep_two (sep : code_unit) (a e : jsstring) :
  exists seg seg' segs, split_on sep (a ++ sep :: e) = seg :: seg' :: segs.
Proof.
  induction a as [|c a (seg & seg' & segs & IH)].
  - change ([] ++ sep :: e) with (sep :: e).
    change (split_on sep (sep :: e))
      with (if sep =? sep then [] :: split_on sep e
            else match split_on sep e with
                 | [] => [[sep]]
                 | seg :: segs => (sep :: seg) :: segs
                 end).
    rewrite N.eqb_refl.
    pose proof (split_on_nonempty sep e) as H.
    destruct (split_on sep e) as [|x xs]; [congruence|]. eauto.
  - change ((c :: a) ++ sep :: e) with (c :: (a ++ sep :: e)).
    change (split_on sep (c :: (a ++ sep :: e)))
      with (if c =? sep then [] :: split_on sep (a ++ sep :: e)
            else match split_on sep (a ++ sep :: e) with
                 | [] => [[c]]
                 | seg :: segs => (c :: seg) :: segs
                 end).
    rewrite IH. destruct (c =? sep); eauto.
Qed.

Lemma split_on_last_after_sep (sep : code_unit) (a e : jsstring) :
  last (split_on sep (a ++ sep :: e)) [] = last (split_on sep e) [].
Proof.
  induction a as [|c a IH].
  - change (split_on sep ([] ++ sep :: e))
      with (if sep =? sep then [] :: split_on sep e
            else match split_on sep e with
                 | [] => [[sep]]
                 | seg :: segs => (sep :: seg) :: segs
                 end).
    rewrite N.eqb_refl.
    pose proof (split_on_nonempty sep e) as H.
    destruct (split_on sep e) as [|x xs]; [congruence | reflexivity].
  - destruct (split_on_sep_two sep a e) as (seg & seg' & segs & E).
    change (split_on sep ((c :: a) ++ sep :: e))
      with (if c =? sep then [] :: split_on sep (a ++ sep :: e)
            else match split_on sep (a ++ sep :: e) with
                 | [] => [[c]]
                 | seg :: segs => (c :: seg) :: segs
                 end).
    rewrite E in *. destruct (c =? sep); exact IH.
Qed.

Lemma file_extension_after_dot (a e : jsstring) :
  file_extension (a ++ 46 :: e) = file_extension e.
Proof. exact (split_on_last_after_sep 46 a e). Qed.

Lemma split_on_whole sep s : ~ In sep s -> split_on sep s = [s].
Proof.
  induction s as [|c s IH]; intros H; simpl; [reflexivity|].
  destruct (c =? sep) eqn:E.
  - apply N.eqb_eq in E. exfalso. apply H. now left.
  - rewrite IH; [reflexivity|]. intros Hin. apply H. now right.
Qed.

(** X7: file.originalname.split('.').pop() is the part after the last dot; a name
    without any dot is returned whole as its own 'extension'; the result never
    contains a dot. *)
Theorem file_extension_spec (base ext : jsstring) :
  ~ In 46 ext ->
  file_extension (base ++ 46 :: ext) = ext
  /\ file_extension ext = ext
  /\ forall name, ~ In 46 (file_extension name).
Proof.
  intros H. split; [|split].
  - rewrite file_extension_after_dot.
    unfold file_extension. now rewrite split_on_whole.
  - unfold file_extension. now rewrite split_on_whole.
  - apply file_extension_no_dot.
Qed.

(** X8: For one business, two storage locators are equal exactly when the
    document-type strings, the timestamps and the extensions are all equal;
    files that differ in any of the three never collide, whatever their
    original base names. *)
Theorem storage_locator_determines b dt1 dt2 t1 t2 n1 n2 :
  storage_locator b dt1 t1 n1 = storage_locator b dt2 t2 n2
  <-> to_string dt1 = to_string dt2 /\ t1 = t2
      /\ file_extension n1 = file_extension n2.
Proof.
  split; [apply storage_locator_inj|].
  intros (E1 & -> & E3). unfold storage_locator. now rewrite E1, E3.
Qed.

(** ** The size shown in the messages *)

(** X9: The figure printed by fileSizeMB.toFixed(2) reads as a decimal number
    with exactly two digits after the point, and its value is the multiple of
    0.01 nearest to size/2^20 (ties upward); for a file over 5 MB it is at
    least 5.00, and a file one byte over the limit is reported as 5.00. *)
Theorem fileSizeMB_rounding sz :
  exists h,
    shows_hundredths (fileSizeMB_toFixed2 sz) h
    /\ 2 * 1048576 * h <= 200 * sz + 1048576
    /\ 200 * sz + 1048576 < 2 * 1048576 * (h + 1)
    /\ (5 * 1048576 < sz -> 500 <= h)
    /\ fileSizeMB_toFixed2 (5 * 1048576 + 1) = lit "5.00".
Proof.
  destruct (size_text_spec sz) as (h & Hs & Hlo & Hhi).
  exists h. split; [exact Hs|]. split; [exact Hlo|]. split; [exact Hhi|].
  split; [intros Hsz; nia | vm_compute; reflexivity].
Qed.

(** ** What each primitive answers *)

Lemma storage_upload_inv path bytes ct w r w' :
  storage_upload path bytes ct w = (r, w') ->
  w_trace w' = w_trace w ++ [EvUpload path]
  /\ w_documents w' = w_documents w
  /\ w_profiles w' = w_profiles w
  /\ w_next_id w' = w_next_id w
  /\ w_now w' = w_now w
  /\ match r with
     | inl _ => w_blobs w' = w_blobs w
     | inr p => p = removeEmptyFolders path /\ blob_exists p w = false
                /\ w_blobs w' = w_blobs w ++ [mkBlob p bytes ct]
     end.
Proof.
  unfold storage_upload, bind, remote_call, ret, blob_exists.
  destruct w as [url blobs docs provs profs nid now ticks faults trace].
  destruct faults as [|[msg|] fs]; simpl;
    try (destruct (existsb _ blobs) eqn:E);
    intros H; injection H as <- <-; simpl; auto 10.
Qed.

Lemma insert_document_inv data w r w' :
  insert_document data w = (r, w') ->
  w_trace w' = w_trace w ++ [EvInsertDocument data]
  /\ w_blobs w' = w_blobs w
  /\ w_profiles w' = w_profiles w
  /\ match r with
     | inl _ => w_documents w' = w_documents w
     | inr row =>
         row = mkDocRow (w_next_id w) (dd_business_id data)
                        (json_string (dd_document_type data))
                        (dd_document_name data) (dd_file_url data)
                        (dd_file_size_bytes data) (dd_verification_status data)
                        (w_now w)
         /\ w_documents w' = w_documents w ++ [row]
     end.
Proof.
  unfold insert_document, bind, remote_call, ret.
  destruct w as [url blobs docs provs profs nid now ticks faults trace].
  destruct faults as [|[msg|] fs]; intros H; injection H as <- <-; cbn; auto 10.
Qed.

Lemma storage_remove_inv path w r w' :
  storage_remove path w = (r, w') ->
  w_trace w' = w_trace w ++ [EvRemove path]
  /\ w_documents w' = w_documents w
  /\ w_profiles w' = w_profiles w
  /\ w_blobs w' = match w_faults w with
                  | Some _ :: _ => w_blobs w
                  | _ => filter (fun b => negb (str_eqb (blob_path b) path)) (w_blobs w)
                  end.
Proof.
  unfold storage_remove, bind, remote_call, ret.
  destruct w as [url blobs docs provs profs nid now ticks faults trace].
  destruct faults as [|[msg|] fs]; intros H; injection H as <- <-; cbn; auto 10.
Qed.

Lemma Date_now_clock w :
  w_next_id (snd (Date_now w)) = w_next_id w
  /\ w_now (snd (Date_now w)) = fst (Date_now w).
Proof. unfold Date_now. destruct (w_ticks w); cbn; auto. Qed.

(** ** The five ways one iteration ends *)

Lemma process_resolved_cases url_of b documentType file u e w :
  let path := storage_locator b documentType (fst (Date_now w)) (originalname file) in
  let data := fun publicUrl =>
    mkDocumentData b documentType (originalname file) publicUrl (size file)
                   (lit "pending") in
  let run := process_resolved url_of b documentType file (u, e) w in
  (5 * MB < size file
   /\ run = ((u, e ++ [process_error (originalname file)
                                     (size_limit_message (size file))]), w))
  \/ (size file <= 5 * MB /\
      ((exists message w2,
          storage_upload path (buffer file) (mimetype file) (snd (Date_now w))
          = (inl message, w2)
          /\ run = ((u, e ++ [upload_error (originalname file)
                                (upload_error_message (size file) message)]), w2))
       \/ (exists stored w2,
             storage_upload path (buffer file) (mimetype file) (snd (Date_now w))
             = (inr stored, w2)
             /\ url_of (w_supabase_url w2) stored = None
             /\ run = ((u, e ++ [process_error (originalname file)
                                               (lit "URI malformed")]), w2))
       \/ (exists stored w2 publicUrl message w3 answer w4,
             storage_upload path (buffer file) (mimetype file) (snd (Date_now w))
             = (inr stored, w2)
             /\ url_of (w_supabase_url w2) stored = Some publicUrl
             /\ insert_document (data publicUrl) w2 = (inl message, w3)
             /\ storage_remove stored w3 = (answer, w4)
             /\ run = ((u, e ++ [save_error (originalname file) message]), w4))
       \/ (exists stored w2 publicUrl row w3,
             storage_upload path (buffer file) (mimetype file) (snd (Date_now w))
             = (inr stored, w2)
             /\ url_of (w_supabase_url w2) stored = Some publicUrl
             /\ insert_document (data publicUrl) w2 = (inr row, w3)
             /\ run = ((u ++ [mkUploadedEntry (doc_id row) documentType
                                (originalname file) publicUrl (lit "uploaded")
                                (doc_uploaded_at row)], e), w3)))).
Proof.
  intros path data run. subst run.
  destruct (5 * MB <? size file) eqn:Hlt.
  { left. split; [now apply N.ltb_lt|]. unfold process_resolved. now rewrite Hlt. }
  right. split; [now apply N.ltb_ge|].
  unfold process_resolved. rewrite Hlt. unfold bind.
  subst path data. cbv beta.
  destruct (Date_now w) as [ts w1]. cbn [fst snd].
  set (path := storage_locator b documentType ts (originalname file)).
  destruct (storage_upload path (buffer file) (mimetype file) w1)
    as [[message|p] w2] eqn:Eu.
  - left. exists message, w2. split; reflexivity.
  - right.
    destruct (url_of (w_supabase_url w2) p) as [publicUrl|] eqn:Eurl.
    2:{ left. exists p, w2. repeat split; try reflexivity; assumption. }
    right.
    set (data := mkDocumentData _ _ _ _ _ _).
    destruct (insert_document data w2) as [[message|row] w3] eqn:Ei.
    + left. destruct (storage_remove p w3) as [answer w4] eqn:Er.
      exists p, w2, publicUrl, message, w3, answer, w4.
      repeat split; try reflexivity; assumption.
    + right. exists p, w2, publicUrl, row, w3.
      repeat split; try reflexivity; assumption.
Qed.

(** ** The write to the store fails *)

(** X10: When the blob write is refused, the upload is the only remote call made
    for the file: no record insert and no delete are attempted, documents and
    blobs are unchanged, exactly one error 'Failed to upload <name>: <message
    of the store>' is appended, or, when that message contains 'maximum
    allowed size', 'Failed to upload <name>: File size (<size in MB, two
    decimals>) is too large. Please upload a file smaller than 5MB.', and the
    loop continues with the next file. *)
Theorem upload_failure_skips_record b o i file rest uploaded errors w w2 message :
  size file <= 5 * MB ->
  converts (resolve_in o (originalname file) i) = true ->
  let path := storage_locator b (resolve_in o (originalname file) i)
                              (fst (Date_now w)) (originalname file) in
  storage_upload path (buffer file) (mimetype file) (snd (Date_now w))
  = (inl message, w2) ->
  exists text h,
    shows_hundredths text h
    /\ 2 * 1048576 * h <= 200 * size file + 1048576
    /\ 200 * size file + 1048576 < 2 * 1048576 * (h + 1)
    /\ let err :=
         lit "Failed to upload " ++ originalname file ++ lit ": "
         ++ (if includes (lit "maximum allowed size") message
             then lit "File size (" ++ text
                  ++ lit " MB) is too large. Please upload a file smaller than 5MB."
             else message) in
       run_file b o i file (uploaded, errors) w = (inl (uploaded, errors ++ [err]), w2)
       /\ skipn (List.length (w_trace w)) (w_trace w2) = [EvUpload path]
       /\ w_documents w2 = w_documents w
       /\ w_blobs w2 = w_blobs w
       /\ run_files b o i (file :: rest) (uploaded, errors) w
          = run_files b o (i + 1) rest (uploaded, errors ++ [err]) w2.
Proof.
  intros Hsz Hconv path Eu.
  destruct (size_text_spec (size file)) as (h & Hs & Hlo & Hhi).
  exists (fileSizeMB_toFixed2 (size file)), h.
  split; [exact Hs|]. split; [exact Hlo|]. split; [exact Hhi|]. cbv zeta.
  assert (Hlt : (5 * MB <? size file) = false) by (apply N.ltb_ge; exact Hsz).
  destruct (Date_now_frame w) as (_ & Db & Dt & Dd & _).
  destruct (storage_upload_inv _ _ _ _ _ _ Eu) as (Ut & Ud & _ & _ & _ & Ub).
  change (lit "Failed to upload " ++ originalname file ++ lit ": "
          ++ (if includes (lit "maximum allowed size") message
              then lit "File size (" ++ fileSizeMB_toFixed2 (size file)
                   ++ lit " MB) is too large. Please upload a file smaller than 5MB."
              else message))
    with (upload_error (originalname file) (upload_error_message (size file) message)).
  set (err := upload_error _ _).
  assert (Hrun : process_resolved public_url b (resolve_in o (originalname file) i)
                                  file (uploaded, errors) w
                 = ((uploaded, errors ++ [err]), w2)).
  { unfold process_resolved. rewrite Hlt. unfold bind.
    destruct (Date_now w) as [ts w1]. cbn [fst snd] in *.
    fold path. rewrite Eu. reflexivity. }
  split; [rewrite (run_file_converts _ _ _ _ _ _ Hconv), Hrun; reflexivity|].
  split; [rewrite Ut, Dt; apply new_events|].
  split; [now rewrite Ud, Dd|].
  split; [now rewrite Ub, Db|].
  rewrite run_files_cons, Hconv, Hrun. reflexivity.
Qed.

(** ** Both remote writes succeed *)

(** X11: When a file resolves to a string label and the blob write and the
    insert both succeed, the calls for the file are exactly upload then insert
    (no delete); the blob is stored under the path the storage client
    returns, which is the locator with its empty folders removed; the
    persisted row carries the business id, the label, the original filename,
    the public URL of the stored path (encodeURI of the storage URL followed
    by the bucket and the path), the byte size and status 'pending'; and one
    success entry with the row's id and upload time is appended while errors
    are unchanged. *)
Theorem success_persists_record b o i file label uploaded errors w stored w2 url w3 row :
  size file <= 5 * MB ->
  resolve_in o (originalname file) i = JStr label ->
  let path := lit "provider-documents/" ++ b ++ lit "/" ++ label ++ lit "_"
              ++ dec (fst (Date_now w)) ++ lit "." ++ file_extension (originalname file) in
  let data := mkDocumentData b (JStr label) (originalname file) url (size file)
                             (lit "pending") in
  storage_upload path (buffer file) (mimetype file) (snd (Date_now w)) = (inr stored, w2) ->
  encodeURI (w_supabase_url w2 ++ lit "/storage/v1/object/public/provider-documents/"
             ++ stored) = Some url ->
  insert_document data w2 = (inr row, w3) ->
  run_file b o i file (uploaded, errors) w
  = (inl (uploaded ++ [mkUploadedEntry (doc_id row) (JStr label) (originalname file)
                                       url (lit "uploaded") (doc_uploaded_at row)],
          errors), w3)
  /\ skipn (List.length (w_trace w)) (w_trace w3) = [EvUpload path; EvInsertDocument data]
  /\ row = mkDocRow (w_next_id w) b (Some label) (originalname file)
                    url (size file) (lit "pending") (fst (Date_now w))
  /\ w_documents w3 = w_documents w ++ [row]
  /\ stored = removeEmptyFolders path
  /\ w_blobs w3 = w_blobs w ++ [mkBlob stored (buffer file) (mimetype file)].
Proof.
  intros Hsz Hlabel path data Eu Eurl Ei.
  assert (Hconv : converts (resolve_in o (originalname file) i) = true)
    by (now rewrite Hlabel).
  assert (Hpath : path = storage_locator b (JStr label) (fst (Date_now w))
                                         (originalname file)) by reflexivity.
  assert (Hlt : (5 * MB <? size file) = false) by (apply N.ltb_ge; exact Hsz).
  destruct (Date_now_frame w) as (_ & Db & Dt & Dd & _).
  destruct (Date_now_clock w) as (Dn & Dc).
  destruct (storage_upload_inv _ _ _ _ _ _ Eu) as (Ut & Ud & _ & Un & Uc & Hst & _ & Ub).
  destruct (insert_document_inv _ _ _ _ Ei) as (It & Ib & _ & Hrow & Id).
  split.
  { rewrite (run_file_converts _ _ _ _ _ _ Hconv), Hlabel.
    unfold process_resolved. rewrite Hlt. unfold bind.
    rewrite (surjective_pairing (Date_now w)).
    rewrite <- Hpath, Eu. unfold public_url. rewrite Eurl.
    fold data. rewrite Ei. reflexivity. }
  split.
  { rewrite It, Ut, Dt, <- app_assoc. apply new_events. }
  split.
  { rewrite Hrow. subst data. cbn [dd_business_id dd_document_type dd_document_name
      dd_file_url dd_file_size_bytes dd_verification_status json_string].
    now rewrite Un, Dn, Uc, Dc. }
  split; [now rewrite Id, Ud, Dd|].
  split; [exact Hst | now rewrite Ib, Ub, Db].
Qed.

(** ** The clean-up after a failed insert *)


(** ** The loop as a whole *)



Lemma process_resolved_records url_of b dt file u e w :
  let r := process_resolved url_of b dt file (u, e) w in
  exists newu extra,
    fst (fst r) = u ++ newu
    /\ w_documents (snd r) = w_documents w ++ extra
    /\ Forall (fun d => doc_business_id d = b
                        /\ doc_verification_status d = lit "pending") extra
    /\ map up_id newu = map doc_id extra
    /\ map up_fileName newu = map doc_document_name extra.
Proof.
  cbv zeta. destruct (Date_now_frame w) as (_ & _ & _ & Dd & _).
  destruct (process_resolved_cases url_of b dt file u e w)
    as [[_ ->]|[_ [(msg & w2 & Eu & ->)
                  |[(p & w2 & Eu & _ & ->)
                   |[(p & w2 & url & msg & w3 & ans & w4 & Eu & _ & Ei & Er & ->)
                    |(p & w2 & url & row & w3 & Eu & _ & Ei & ->)]]]]];
    cbn [fst snd].
  - exists [], []. rewrite !app_nil_r. auto.
  - apply storage_upload_inv in Eu as (_ & Ud & _).
    exists [], []. rewrite !app_nil_r, Ud, Dd. auto.
  - apply storage_upload_inv in Eu as (_ & Ud & _).
    exists [], []. rewrite !app_nil_r, Ud, Dd. auto.
  - apply storage_upload_inv in Eu as (_ & Ud & _).
    apply insert_document_inv in Ei as (_ & _ & _ & Id).
    apply storage_remove_inv in Er as (_ & Rd & _).
    exists [], []. rewrite !app_nil_r, Rd, Id, Ud, Dd. auto.
  - apply storage_upload_inv in Eu as (_ & Ud & _).
    apply insert_document_inv in Ei as (_ & _ & _ & Hrow & Id).
    eexists [_], [row]. rewrite Id, Ud, Dd.
    split; [reflexivity|]. split; [reflexivity|].
    split; [|split].
    + constructor; [|constructor]. rewrite Hrow. cbn. auto.
    + reflexivity.
    + cbn. rewrite Hrow. reflexivity.
Qed.

Lemma process_file_records b m i file u e w :
  let r := process_file b m i file (u, e) w in
  exists newu extra,
    fst (fst r) = u ++ newu
    /\ w_documents (snd r) = w_documents w ++ extra
    /\ Forall (fun d => doc_business_id d = b
                        /\ doc_verification_status d = lit "pending") extra
    /\ map up_id newu = map doc_id extra
    /\ map up_fileName newu = map doc_document_name extra.
Proof. apply process_resolved_records. Qed.

Lemma process_files_records_run b m files : forall i u e w,
  let r := process_files b m i files (u, e) w in
  exists newu extra,
    fst (fst r) = u ++ newu
    /\ w_documents (snd r) = w_documents w ++ extra
    /\ Forall (fun d => doc_business_id d = b
                        /\ doc_verification_status d = lit "pending") extra
    /\ map up_id newu = map doc_id extra
    /\ map up_fileName newu = map doc_document_name extra.
Proof.
  induction files as [|f rest IH]; intros i u e w.
  - exists [], []. cbn. rewrite !app_nil_r. auto.
  - cbv zeta. rewrite process_files_cons.
    pose proof (process_file_records b m i f u e w) as H. cbv zeta in H.
    destruct (process_file b m i f (u, e) w) as [[u1 e1] w1].
    cbn [fst snd] in H. destruct H as (n1 & x1 & -> & Hd1 & HF1 & Hi1 & Hn1).
    specialize (IH (i + 1) (u ++ n1) e1 w1). cbv zeta in IH.
    destruct IH as (n2 & x2 & Hu2 & Hd2 & HF2 & Hi2 & Hn2).
    exists (n1 ++ n2), (x1 ++ x2).
    rewrite Hu2, Hd2, Hd1, <- !app_assoc, !map_app, Hi1, Hi2, Hn1, Hn2.
    repeat split; trivial. now apply Forall_app.
Qed.

Lemma filter_keeps_others path new blobs blob :
  existsb (fun x => str_eqb (blob_path x) path) blobs = false ->
  In blob blobs ->
  In blob (filter (fun x => negb (str_eqb (blob_path x) path)) (blobs ++ [new])).
Proof.
  intros Hfresh Hin. apply filter_In. split; [apply in_or_app; now left|].
  destruct (str_eqb (blob_path blob) path) eqn:E; [|reflexivity].
  assert (Hex : existsb (fun x => str_eqb (blob_path x) path) blobs = true)
    by (apply existsb_exists; exists blob; split; [exact Hin | exact E]).
  congruence.
Qed.

Lemma process_resolved_keeps_blobs url_of b dt file u e w blob :
  In blob (w_blobs w) ->
  In blob (w_blobs (snd (process_resolved url_of b dt file (u, e) w))).
Proof.
  intros Hin. destruct (Date_now_frame w) as (_ & Db & _).
  destruct (process_resolved_cases url_of b dt file u e w)
    as [[_ ->]|[_ [(msg & w2 & Eu & ->)
                  |[(p & w2 & Eu & _ & ->)
                   |[(p & w2 & url & msg & w3 & ans & w4 & Eu & _ & Ei & Er & ->)
                    |(p & w2 & url & row & w3 & Eu & _ & Ei & ->)]]]]];
    cbn [snd].
  - exact Hin.
  - apply storage_upload_inv in Eu as (_ & _ & _ & _ & _ & Ub).
    now rewrite Ub, Db.
  - apply storage_upload_inv in Eu as (_ & _ & _ & _ & _ & _ & _ & Ub).
    rewrite Ub, Db. apply in_or_app. now left.
  - apply storage_upload_inv in Eu as (_ & _ & _ & _ & _ & _ & Hfresh & Ub).
    apply insert_document_inv in Ei as (_ & Ib & _).
    apply storage_remove_inv in Er as (_ & _ & _ & Rb).
    unfold blob_exists in Hfresh. rewrite Db in Hfresh.
    rewrite Rb, Ib, Ub, Db.
    destruct (w_faults w3) as [|[x|] fs];
      try (apply (filter_keeps_others _ _ _ _ Hfresh Hin)).
    apply in_or_app. now left.
  - apply storage_upload_inv in Eu as (_ & _ & _ & _ & _ & _ & _ & Ub).
    apply insert_document_inv in Ei as (_ & Ib & _).
    rewrite Ib, Ub, Db. apply in_or_app. now left.
Qed.

Lemma process_file_keeps_blobs b m i file u e w blob :
  In blob (w_blobs w) ->
  In blob (w_blobs (snd (process_file b m i file (u, e) w))).
Proof. apply process_resolved_keeps_blobs. Qed.

Lemma process_files_blobs_kept b m files : forall i u e w blob,
  In blob (w_blobs w) ->
  In blob (w_blobs (snd (process_files b m i files (u, e) w))).
Proof.
  induction files as [|f rest IH]; intros i u e w blob Hin; [exact Hin|].
  rewrite process_files_cons.
  pose proof (process_file_keeps_blobs b m i f u e w blob Hin) as H.
  destruct (process_file b m i f (u, e) w) as [[u1 e1] w1].
  apply IH. exact H.
Qed.

(** The same two invariants for the loop as the handler runs it, whether it
    completes or is left by an exception. *)
Lemma run_files_records b o files : forall i u e w,
  let r := run_files b o i files (u, e) w in
  exists newu extra,
    (forall u' e', fst r = inl (u', e') -> u' = u ++ newu)
    /\ w_documents (snd r) = w_documents w ++ extra
    /\ Forall (fun d => doc_business_id d = b
                        /\ doc_verification_status d = lit "pending") extra
    /\ map up_id newu = map doc_id extra.
Proof.
  induction files as [|f rest IH]; intros i u e w.
  - exists [], []. cbn. rewrite !app_nil_r. repeat split; auto.
    intros u' e' H. now injection H as <- _.
  - cbv zeta. rewrite run_files_cons.
    destruct (converts (resolve_in o (originalname f) i)).
    2:{ exists [], []. cbn [fst snd]. rewrite !app_nil_r. repeat split; auto.
        discriminate. }
    pose proof (process_resolved_records public_url b
                  (resolve_in o (originalname f) i) f u e w) as H. cbv zeta in H.
    destruct (process_resolved _ _ _ _ _ _) as [[u1 e1] w1].
    cbn [fst snd] in H. destruct H as (n1 & x1 & -> & Hd1 & HF1 & Hi1 & _).
    specialize (IH (i + 1) (u ++ n1) e1 w1). cbv zeta in IH.
    destruct IH as (n2 & x2 & Hu2 & Hd2 & HF2 & Hi2).
    exists (n1 ++ n2), (x1 ++ x2).
    rewrite Hd2, Hd1, <- !app_assoc, !map_app, Hi1, Hi2.
    repeat split; trivial; [|now apply Forall_app].
    intros u' e' H. rewrite (Hu2 _ _ H). now rewrite <- app_assoc.
Qed.

Lemma run_files_blobs_kept b o files : forall i u e w blob,
  In blob (w_blobs w) ->
  In blob (w_blobs (snd (run_files b o i files (u, e) w))).
Proof.
  induction files as [|f rest IH]; intros i u e w blob Hin; [exact Hin|].
  rewrite run_files_cons.
  destruct (converts (resolve_in o (originalname f) i)); [|exact Hin].
  pose proof (process_resolved_keeps_blobs public_url b
                (resolve_in o (originalname f) i) f u e w blob Hin) as H.
  destruct (process_resolved _ _ _ _ _ _) as [[u1 e1] w1].
  apply IH. exact H.
Qed.

(** X14: The loop only appends to business_documents: existing rows are never
    changed or deleted, every added row belongs to the request's business with
    status 'pending', and the new success entries correspond one-to-one and in
    order to the added rows (same ids, same filenames). *)
Theorem process_files_records b m files i u e w :
  let r := process_files b m i files (u, e) w in
  exists newu extra,
    fst (fst r) = u ++ newu
    /\ w_documents (snd r) = w_documents w ++ extra
    /\ Forall (fun d => doc_business_id d = b
                        /\ doc_verification_status d = lit "pending") extra
    /\ map up_id newu = map doc_id extra
    /\ map up_fileName newu = map doc_document_name extra.
Proof. apply process_files_records_run. Qed.

(** X15: A blob that is in the store before a batch is still there after it: the
    loop never overwrites an existing object (upsert: false) and its clean-up
    delete only targets a locator it has just written. *)
Theorem process_files_keeps_blobs b m files i u e w blob :
  In blob (w_blobs w) ->
  In blob (w_blobs (snd (process_files b m i files (u, e) w))).
Proof. apply process_files_blobs_kept. Qed.

(** ** The setup step *)

Lemma select_existing_inv b w r w' :
  select_existing b w = (r, w') ->
  w_trace w' = w_trace w ++ [EvSelectExisting b]
  /\ w_profiles w' = w_profiles w
  /\ w_documents w' = w_documents w
  /\ w_blobs w' = w_blobs w
  /\ w_faults w' = tl (w_faults w)
  /\ Date_now w' = (fst (Date_now w), snd (Date_now w'))
  /\ r = match w_faults w with
         | Some _ :: _ => None
         | _ => Some (firstn 1 (docs_of_business b (w_documents w)))
         end.
Proof.
  unfold select_existing, bind, remote_call, ret, Date_now.
  destruct w as [url blobs docs provs profs nid now ticks faults trace].
  destruct faults as [|[msg|] fs]; intros H; injection H as <- <-; cbn;
    destruct ticks; cbn; auto 10.
Qed.

Lemma update_setup_step_inv b step ts w r w' :
  update_setup_step b step ts w = (r, w') ->
  w_trace w' = w_trace w ++ [EvUpdateSetupStep b step]
  /\ w_documents w' = w_documents w
  /\ w_blobs w' = w_blobs w
  /\ w_profiles w'
     = match w_faults w with
       | Some _ :: _ => w_profiles w
       | _ => map (fun p => if str_eqb (bp_id p) b
                            then mkProfileRow (bp_id p) (bp_business_type p)
                                   (bp_verification_status p) step ts
                            else p) (w_profiles w)
       end.
Proof.
  unfold update_setup_step, bind, remote_call, ret.
  destruct w as [url blobs docs provs profs nid now ticks faults trace].
  destruct faults as [|[msg|] fs]; intros H; injection H as <- <-; cbn; auto 10.
Qed.

Lemma written_step (status : jsstring) :
  N.max (if str_eqb status (lit "pending") then 2 else 1) 2 = 2.
Proof. destruct (str_eqb status (lit "pending")); reflexivity. Qed.

Lemma advance_setup_step_run b bp uploaded w :
  let w' := snd (advance_setup_step b bp uploaded w) in
  w_documents w' = w_documents w
  /\ w_blobs w' = w_blobs w
  /\ (setup_step_updates (skipn (List.length (w_trace w)) (w_trace w')) = []
      \/ setup_step_updates (skipn (List.length (w_trace w)) (w_trace w'))
         = [EvUpdateSetupStep b 2]).
Proof.
  cbv zeta. unfold advance_setup_step.
  destruct uploaded as [|u0 us].
  { cbn [ret snd]. rewrite skipn_all. auto. }
  unfold bind.
  destruct (select_existing b w) as [r w1] eqn:Es.
  destruct (select_existing_inv _ _ _ _ Es) as (St & _ & Sd & Sb & _).
  assert (Hupd : forall w3,
            snd (let (now, w2) := Date_now w1 in
                 update_setup_step b
                   (N.max (if str_eqb (bp_verification_status bp) (lit "pending")
                           then 2 else 1) 2) now w2) = w3 ->
            w_documents w3 = w_documents w /\ w_blobs w3 = w_blobs w
            /\ setup_step_updates (skipn (List.length (w_trace w)) (w_trace w3))
               = [EvUpdateSetupStep b 2]).
  { intros w3 <-. rewrite written_step.
    destruct (Date_now_frame w1) as (_ & Db & Dt & Dd & _).
    destruct (Date_now w1) as [ts w2]. cbn [fst snd] in *.
    destruct (update_setup_step b 2 ts w2) as [r2 w3] eqn:Eu.
    destruct (update_setup_step_inv _ _ _ _ _ _ Eu) as (Ut & Ud & Ub & _).
    cbn [snd]. rewrite Ud, Dd, Sd, Ub, Db, Sb, Ut, Dt, St, <- app_assoc, new_events.
    auto. }
  destruct r as [[|d ds]|].
  - destruct (Hupd _ eq_refl) as (? & ? & ?). auto.
  - cbn [ret snd]. rewrite St, new_events, Sd, Sb. auto.
  - destruct (Hupd _ eq_refl) as (? & ? & ?). auto.
Qed.

(** X17: The post-processing step never touches documents or blobs and issues at
    most one profile update; when it does, the step written is always 2,
    whatever the profile's verification status (Math.max(x ? 2 : 1, 2) is
    constant). *)
Theorem advance_setup_step_writes_two b bp uploaded w :
  let w' := snd (advance_setup_step b bp uploaded w) in
  w_documents w' = w_documents w
  /\ w_blobs w' = w_blobs w
  /\ (setup_step_updates (skipn (List.length (w_trace w)) (w_trace w')) = []
      \/ setup_step_updates (skipn (List.length (w_trace w)) (w_trace w'))
         = [EvUpdateSetupStep b 2]).
Proof. apply advance_setup_step_run. Qed.

(** X18: If at least one file succeeded, the existence query fails (data is null)
    and the update succeeds, every profile row of the business gets setup_step
    = 2 and the current time, even when its step was already higher; other
    profiles are unchanged. *)
Theorem failed_existence_query_resets_step b bp u0 us w message fs :
  w_faults w = Some message :: fs ->
  hd None fs = None ->
  w_profiles (snd (advance_setup_step b bp (u0 :: us) w))
  = map (fun p => if str_eqb (bp_id p) b
                  then mkProfileRow (bp_id p) (bp_business_type p)
                                    (bp_verification_status p) 2 (fst (Date_now w))
                  else p) (w_profiles w).
Proof.
  intros Hf Hfs. unfold advance_setup_step, bind.
  destruct (select_existing b w) as [r w1] eqn:Es.
  destruct (select_existing_inv _ _ _ _ Es) as (_ & Sp & _ & _ & Sf & Sn & Hr).
  rewrite Hf in Hr, Sf. subst r. cbn [tl] in Sf.
  rewrite written_step.
  destruct (Date_now_frame w1) as (Df & _ & _ & _ & Dp).
  rewrite Sn. cbn [fst snd] in *.
  destruct (update_setup_step b 2 (fst (Date_now w)) (snd (Date_now w1))) as [r2 w3] eqn:Eu.
  destruct (update_setup_step_inv _ _ _ _ _ _ Eu) as (_ & _ & _ & Up).
  cbn [snd]. rewrite Up, Df, Sf, Dp, Sp.
  destruct fs as [|[x|] fs']; [reflexivity | discriminate | reflexivity].
Qed.

(** ** More on the requirement check *)

Lemma qualifying_docs_app b d1 d2 :
  qualifying_docs b (d1 ++ d2) = qualifying_docs b d1 ++ qualifying_docs b d2.
Proof. apply filter_app. Qed.

(** X19: The requirement check is monotone in the stored records: if it is true for
    a set of records it stays true when any records are added. *)
Theorem requirement_monotone business_type b docs more :
  all_required_uploaded business_type (Some (qualifying_docs b docs)) = true ->
  all_required_uploaded business_type (Some (qualifying_docs b (docs ++ more)))
  = true.
Proof.
  rewrite !requirement_check_answered. intros H label Hin.
  destruct (H label Hin) as (d & Hd & Hrest).
  exists d. split; [|exact Hrest].
  apply in_or_app. now left.
Qed.

(** X20: Records of another business and records whose status is none of pending,
    verified, under_review (for instance rejected ones) never change the
    result of the requirement check. *)
Theorem requirement_ignores_other_records business_type b docs others :
  Forall (fun d => doc_business_id d <> b
                   \/ (doc_verification_status d <> lit "pending"
                       /\ doc_verification_status d <> lit "verified"
                       /\ doc_verification_status d <> lit "under_review")) others ->
  all_required_uploaded business_type (Some (qualifying_docs b (docs ++ others)))
  = all_required_uploaded business_type (Some (qualifying_docs b docs)).
Proof.
  intros H. rewrite qualifying_docs_app.
  assert (E : qualifying_docs b others = []).
  { induction H as [|d l Hd _ IH]; [reflexivity|].
    unfold qualifying_docs in *. cbn [filter]. rewrite IH.
    destruct (str_eqb (doc_business_id d) b
              && existsb (str_eqb (doc_verification_status d)) qualifying_statuses) eqn:E;
      [|reflexivity].
    exfalso. apply andb_true_iff in E as [E1 E2]. apply str_eqb_eq in E1.
    unfold qualifying_statuses in E2. cbn [existsb] in E2.
    rewrite !orb_true_iff, !str_eqb_eq in E2. intuition congruence. }
  now rewrite E, app_nil_r.
Qed.

(** X21: For any business type other than sole_proprietorship, the requirement
    check is false as long as the business has no qualifying business_license
    record, whatever else is stored. *)
Theorem requirement_needs_business_license business_type b docs :
  business_type <> lit "sole_proprietorship" ->
  ~ counts_toward b docs (lit "business_license") ->
  all_required_uploaded business_type (Some (qualifying_docs b docs)) = false.
Proof.
  intros Hbt Hno.
  destruct (all_required_uploaded _ _) eqn:E; [|reflexivity].
  exfalso. apply Hno. apply (proj1 (requirement_check_answered _ _ _) E).
  unfold required_types. apply str_eqb_neq in Hbt. rewrite Hbt. cbn [negb].
  apply in_or_app. right. now left.
Qed.

(** ** What the intake lets through *)

Lemma over_limit_false_iff at_limit sz :
  over_limit at_limit sz = false
  <-> sz < fileSize_limit \/ (sz = fileSize_limit /\ at_limit = false).
Proof.
  unfold over_limit. rewrite orb_false_iff, andb_false_iff, N.ltb_ge, N.eqb_neq.
  destruct at_limit.
  - split.
    + intros [H [E|Hne]]; [discriminate | left; lia].
    + intros [H|[_ E]]; [|discriminate]. split; [lia | right; lia].
  - split.
    + intros [H _]. destruct (N.eq_dec sz fileSize_limit); [right; auto | left; lia].
    + intros [H|[-> _]]; split; try lia; left; reflexivity.
Qed.

(** X22: The intake (upload.array('documents', 10) with the configured filter and
    size limit) ignores the parts without a filename and lets a batch through
    exactly when its other parts are at most the allowed number, all under the
    expected field, each with an allowed MIME type and a size below the limit
    of 10 MB (or exactly at it, for a parser that only refuses larger parts);
    the files handed over are the parts with a filename, in order. *)
Theorem multer_array_accepts_iff at_limit field n parts files :
  multer_array at_limit field n parts = inr files
  <-> files = filter has_filename parts
      /\ N.of_nat (List.length files) <= n
      /\ Forall (fun f => fieldname f = field
                          /\ In (mimetype f) allowedTypes
                          /\ (size f < 10 * 1024 * 1024
                              \/ (size f = 10 * 1024 * 1024 /\ at_limit = false)))
                files.
Proof.
  change (10 * 1024 * 1024) with fileSize_limit.
  revert n files. induction parts as [|g rest IH]; intros n files.
  - cbn. split.
    + intros H. injection H as <-. repeat split; [cbn; lia | constructor].
    + intros (-> & _). reflexivity.
  - cbn [multer_array filter]. unfold has_filename at 1.
    destruct (originalname g) as [|c name] eqn:Eg; [apply IH|].
    unfold fileFilter.
    destruct (str_eqb (fieldname g) field) eqn:Ef; cbn [negb orb].
    2: { split; [discriminate|]. intros (-> & _ & H).
         inversion H as [|? ? (Hg & _) _]; subst.
         apply str_eqb_neq in Ef. contradiction. }
    apply str_eqb_eq in Ef.
    destruct (n =? 0) eqn:En.
    { apply N.eqb_eq in En. split; [discriminate|]. intros (-> & H & _).
      cbn [List.length] in H. lia. }
    apply N.eqb_neq in En.
    destruct (existsb (str_eqb (mimetype g)) allowedTypes) eqn:Em.
    2: { split; [discriminate|]. intros (-> & _ & H).
         inversion H as [|? ? (_ & Hg & _) _]; subst.
         assert (existsb (str_eqb (mimetype g)) allowedTypes = true)
           by (apply existsb_exists; exists (mimetype g); split;
               [exact Hg | apply str_eqb_refl]).
         congruence. }
    assert (Hm : In (mimetype g) allowedTypes).
    { apply existsb_exists in Em as (t & Hin & Ht). apply str_eqb_eq in Ht. now subst. }
    destruct (over_limit at_limit (size g)) eqn:Es.
    { split; [discriminate|]. intros (-> & _ & H).
      inversion H as [|? ? (_ & _ & Hg) _]; subst.
      apply over_limit_false_iff in Hg. congruence. }
    apply over_limit_false_iff in Es.
    specialize (IH (n - 1)).
    destruct (multer_array at_limit field (n - 1) rest) as [err|fs].
    + split; [discriminate|]. intros (-> & Hn & H).
      inversion H as [|? ? Hg HF]; subst.
      assert (X : @inl jsstring (list File) err = inr (filter has_filename rest)).
      { apply IH. repeat split; [cbn [List.length] in Hn; lia | exact HF]. }
      discriminate X.
    + split.
      * intros H. injection H as <-.
        destruct (proj1 (IH fs) eq_refl) as (-> & Hn & HF).
        repeat split; [cbn [List.length]; lia | constructor; auto].
      * intros (-> & Hn & H). inversion H as [|? ? Hg HF]; subst.
        assert (X : @inr jsstring (list File) fs = inr (filter has_filename rest)).
        { apply IH. repeat split; [cbn [List.length] in Hn; lia | exact HF]. }
        injection X as ->. reflexivity.
Qed.

(** ** The loop over a mapping of strings

    For a mapping of strings no label fails to convert, and when no string of
    the request holds a surrogate [encodeURI] accepts every public URL: the
    loop the handler runs is then [process_files]. *)

Lemma encodeURI_accepts s : no_surrogate s -> encodeURI s <> None.
Proof.
  induction 1 as [|c r [Hh Hl] _ IH]; [discriminate|].
  cbn [encodeURI]. rewrite Hh, Hl.
  destruct (uri_kept c); destruct (encodeURI r); cbn; congruence.
Qed.

Lemma no_surrogate_digit c : is_digit c = true -> surrogate_free c.
Proof.
  unfold is_digit, surrogate_free, is_high_surrogate, is_low_surrogate.
  intros H. apply andb_true_iff in H as [H1 H2].
  apply N.leb_le in H1, H2. split; apply andb_false_iff; left; apply N.leb_gt; lia.
Qed.

Lemma dec_no_surrogate n : no_surrogate (dec n).
Proof.
  eapply Forall_impl; [|apply uint_digits_are_digits]. apply no_surrogate_digit.
Qed.

Lemma split_on_Forall (P : code_unit -> Prop) sep s :
  Forall P s -> Forall (Forall P) (split_on sep s).
Proof.
  induction 1 as [|c r Hc _ IH]; cbn [split_on]; [repeat constructor|].
  destruct (c =? sep); [constructor; [constructor | exact IH]|].
  destruct (split_on sep r) as [|seg segs]; [repeat constructor; exact Hc|].
  inversion IH; subst. constructor; [constructor|]; assumption.
Qed.

Lemma file_extension_Forall (P : code_unit -> Prop) name :
  Forall P name -> Forall P (file_extension name).
Proof.
  intros H. unfold file_extension.
  pose proof (split_on_Forall P 46 name H) as HF.
  pose proof (split_on_nonempty 46 name) as Hne.
  destruct (split_on 46 name) as [|seg segs]; [congruence|].
  destruct (exists_last (l := seg :: segs)) as (l' & a & E); [discriminate|].
  rewrite E, last_last. rewrite E in HF. apply Forall_app in HF as [_ HF].
  now inversion HF.
Qed.

Lemma strip_trailing_slash_Forall (P : code_unit -> Prop) s :
  Forall P s -> Forall P (strip_trailing_slash s).
Proof.
  induction 1 as [|c r Hc Hr IH]; [constructor|].
  cbn [strip_trailing_slash]. destruct r as [|d r'].
  - destruct (c =? SLASH); repeat constructor; exact Hc.
  - constructor; assumption.
Qed.

Lemma collapse_slashes_Forall (P : code_unit -> Prop) b s :
  P SLASH -> Forall P s -> Forall P (collapse_slashes b s).
Proof.
  intros HS H. revert b. induction H as [|c r Hc _ IH]; intros b; [constructor|].
  cbn [collapse_slashes]. destruct (c =? SLASH); [destruct b|]; try constructor; auto.
Qed.

Lemma removeEmptyFolders_no_surrogate path :
  no_surrogate path -> no_surrogate (removeEmptyFolders path).
Proof.
  intros H. unfold removeEmptyFolders.
  apply collapse_slashes_Forall; [split; reflexivity|].
  apply strip_trailing_slash_Forall.
  destruct H as [|c r Hc Hr]; [constructor|].
  cbn [strip_leading_slash]. destruct (c =? SLASH); [exact Hr | now constructor].
Qed.

Lemma lit_no_surrogate (s : string) : no_surrogate (lit s).
Proof.
  unfold lit. induction s as [|a s IH]; [constructor|].
  cbn [list_ascii_of_string map]. constructor; [|exact IH].
  assert (H : N_of_ascii a < 256) by apply N_ascii_bounded.
  unfold surrogate_free, is_high_surrogate, is_low_surrogate.
  split; apply andb_false_iff; left; apply N.leb_gt; lia.
Qed.

Lemma resolve_no_surrogate m name i :
  Forall (fun kv => no_surrogate (snd kv)) m -> no_surrogate name ->
  no_surrogate (to_string (resolve_document_type m name i))
  /\ converts (resolve_document_type m name i) = true.
Proof.
  intros Hm Hn.
  assert (Hd : no_surrogate (lit "document_" ++ dec i))
    by (apply Forall_app; split; [apply lit_no_surrogate | apply dec_no_surrogate]).
  assert (Hi : no_surrogate (to_string (JInherited name))).
  { cbn [to_string]. destruct (str_eqb name (lit "__proto__")); [apply lit_no_surrogate|].
    repeat (apply Forall_app; split); try apply lit_no_surrogate.
    destruct (str_eqb name (lit "constructor")); [apply lit_no_surrogate | exact Hn]. }
  assert (Hfind : forall p v, option_map snd (find p m) = Some v -> no_surrogate v).
  { intros p v E. destruct (find p m) as [kv|] eqn:Ef; [|discriminate].
    injection E as <-. apply find_some in Ef as [Hin _].
    rewrite Forall_forall in Hm. exact (Hm kv Hin). }
  unfold resolve_document_type, js_get, inherited_member.
  destruct (own_property m name) as [[|c v]|] eqn:Eo.
  - destruct (normalized_match m name) as [[|c' v']|] eqn:En; cbn; auto.
    split; [|reflexivity]. exact (Hfind _ _ En).
  - cbn. split; [|reflexivity]. exact (Hfind _ _ Eo).
  - destruct (existsb (str_eqb name) object_prototype_members); [split; [exact Hi | reflexivity]|].
    destruct (normalized_match m name) as [[|c' v']|] eqn:En; cbn; auto.
    split; [|reflexivity]. exact (Hfind _ _ En).
Qed.

Lemma storage_upload_url path bytes ct w r w' :
  storage_upload path bytes ct w = (r, w') -> w_supabase_url w' = w_supabase_url w.
Proof.
  unfold storage_upload, bind, remote_call, ret.
  destruct w as [url blobs docs provs profs nid now ticks faults trace].
  destruct faults as [|[msg|] fs]; simpl;
    try (destruct (blob_exists _ _));
    intros H; injection H as <- <-; reflexivity.
Qed.

Lemma Date_now_url w : w_supabase_url (snd (Date_now w)) = w_supabase_url w.
Proof. unfold Date_now. destruct (w_ticks w); reflexivity. Qed.

(** The two readings of the public URL agree on every path that can be
    stored for the file. *)
Lemma process_resolved_ext url_of1 url_of2 b dt file acc w :
  (forall stored w2,
      storage_upload (storage_locator b dt (fst (Date_now w)) (originalname file))
                     (buffer file) (mimetype file) (snd (Date_now w)) = (inr stored, w2) ->
      url_of1 (w_supabase_url w2) stored = url_of2 (w_supabase_url w2) stored) ->
  process_resolved url_of1 b dt file acc w = process_resolved url_of2 b dt file acc w.
Proof.
  intros H. unfold process_resolved. destruct acc as [u e].
  destruct (5 * MB <? size file); [reflexivity|].
  unfold bind. destruct (Date_now w) as [ts w1]. cbn [fst snd] in H.
  destruct (storage_upload _ _ _ w1) as [[msg|stored] w2] eqn:Eu; [reflexivity|].
  now rewrite (H stored w2 eq_refl).
Qed.

Lemma run_file_plain b m i file acc w :
  no_surrogate (w_supabase_url w) -> no_surrogate b ->
  Forall (fun kv => no_surrogate (snd kv)) m -> no_surrogate (originalname file) ->
  run_file b (plain_object m) i file acc w
  = (inl (fst (process_file b m i file acc w)), snd (process_file b m i file acc w)).
Proof.
  intros Hbase Hb Hm Hn.
  destruct (resolve_no_surrogate m (originalname file) i Hm Hn) as [Hs Hc].
  rewrite run_file_converts; rewrite resolve_in_plain; [|exact Hc].
  unfold process_file.
  rewrite (process_resolved_ext public_url
             (fun base path => Some (publicUrl_of base path))); [reflexivity|].
  intros stored w2 Eu. unfold publicUrl_of.
  destruct (public_url (w_supabase_url w2) stored) eqn:E; [reflexivity|].
  exfalso. revert E. apply encodeURI_accepts.
  rewrite (storage_upload_url _ _ _ _ _ _ Eu), Date_now_url.
  apply storage_upload_inv in Eu as (_ & _ & _ & _ & _ & -> & _).
  apply Forall_app; split; [exact Hbase|].
  apply Forall_app; split; [apply lit_no_surrogate|].
  apply removeEmptyFolders_no_surrogate. unfold storage_locator.
  repeat (apply Forall_app; split);
    try apply lit_no_surrogate; try apply dec_no_surrogate;
    try (now apply file_extension_Forall); assumption.
Qed.

Lemma process_resolved_url url_of b dt file acc w :
  w_supabase_url (snd (process_resolved url_of b dt file acc w)) = w_supabase_url w.
Proof.
  destruct acc as [u e].
  destruct (process_resolved_cases url_of b dt file u e w)
    as [[_ ->]|[_ [(msg & w2 & Eu & ->)
                  |[(p & w2 & Eu & _ & ->)
                   |[(p & w2 & url & msg & w3 & ans & w4 & Eu & _ & Ei & Er & ->)
                    |(p & w2 & url & row & w3 & Eu & _ & Ei & ->)]]]]];
    cbn [snd]; try reflexivity;
    apply storage_upload_url in Eu; rewrite Date_now_url in Eu; try exact Eu.
  - rewrite <- Eu. clear Eu.
    transitivity (w_supabase_url w3).
    + revert Er. unfold storage_remove, bind, remote_call, ret.
      destruct w3 as [url3 blobs docs provs profs nid now ticks faults trace].
      destruct faults as [|[m|] fs]; intros H; injection H as _ <-; reflexivity.
    + revert Ei. unfold insert_document, bind, remote_call, ret.
      destruct w2 as [url2 blobs docs provs profs nid now ticks faults trace].
      destruct faults as [|[m|] fs]; intros H; injection H as _ <-; reflexivity.
  - rewrite <- Eu. clear Eu.
    revert Ei. unfold insert_document, bind, remote_call, ret.
    destruct w2 as [url2 blobs docs provs profs nid now ticks faults trace].
    destruct faults as [|[m|] fs]; intros H; injection H as _ <-; reflexivity.
Qed.

Lemma run_files_plain b m files : forall i acc w,
  no_surrogate (w_supabase_url w) -> no_surrogate b ->
  Forall (fun kv => no_surrogate (snd kv)) m ->
  Forall (fun file => no_surrogate (originalname file)) files ->
  run_files b (plain_object m) i files acc w
  = (inl (fst (process_files b m i files acc w)), snd (process_files b m i files acc w)).
Proof.
  induction files as [|f rest IH]; intros i acc w Hbase Hb Hm Hf; [reflexivity|].
  inversion Hf as [|? ? Hn Hrest]; subst.
  cbn [run_files]. unfold bind at 1.
  rewrite (run_file_plain b m i f acc w Hbase Hb Hm Hn).
  rewrite process_files_cons.
  pose proof (process_resolved_url
                (fun base path => Some (publicUrl_of base path)) b
                (resolve_document_type m (originalname f) i) f acc w) as Hurl.
  fold (process_file b m i f acc w) in Hurl.
  destruct (process_file b m i f acc w) as [acc' w']. cbn [fst snd] in *.
  apply IH; try assumption. now rewrite Hurl.
Qed.

(** ** The handler as a whole *)

Lemma run_files_thrown b o files : forall i acc w message,
  fst (run_files b o i files acc w) = inr message ->
  message = lit "Cannot convert object to primitive value"
  /\ labels_convert o i files = false.
Proof.
  induction files as [|f rest IH]; intros i acc w message H; [discriminate|].
  rewrite run_files_cons in H. cbn [labels_convert].
  destruct (converts (resolve_in o (originalname f) i)).
  - destruct (process_resolved _ _ _ _ _ _) as [acc' w'].
    destruct (IH _ _ _ _ H) as [-> ->]. auto.
  - cbn in H. injection H as <-. auto.
Qed.

Lemma run_files_completed b o files i acc w acc' :
  fst (run_files b o i files acc w) = inl acc' ->
  labels_convert o i files = true.
Proof.
  intros H. destruct (labels_convert o i files) eqn:E; [reflexivity|].
  exfalso. revert i acc w H E.
  induction files as [|f rest IH]; intros i acc w H E; [discriminate|].
  rewrite run_files_cons in H. cbn [labels_convert] in E.
  destruct (converts (resolve_in o (originalname f) i)); [|discriminate].
  destruct (process_resolved _ _ _ _ _ _) as [acc1 w1].
  exact (IH _ _ _ H E).
Qed.

(** X23: Whenever the handler answers with an error other than the 500 raised
    inside the loop (405, 400, 404, and the 500 of a request the intake
    refused or of a mapping that parsed to null) or with the test probe,
    blobs, documents, profiles and providers are exactly as before and the
    only remote calls made, if any, are the ownership and profile lookups. *)
Theorem handler_error_writes_nothing req w :
  match fst (handler req w) with
  | JsonResult _ _ => True
  | JsonError st _ details =>
      st <> 500 \/ details <> Some (lit "Cannot convert object to primitive value") ->
      same_store w (snd (handler req w))
      /\ forallb lookup_event
           (skipn (List.length (w_trace w)) (w_trace (snd (handler req w)))) = true
  | JsonTest _ _ _ =>
      same_store w (snd (handler req w))
      /\ forallb lookup_event
           (skipn (List.length (w_trace w)) (w_trace (snd (handler req w)))) = true
  end.
Proof.
  destruct (handler_cases req w)
    as [(Hk & Hs & Ht)
       |[(files & b & bp & o & w2 & message & _ & Er & Ef)
        |(files & b & bp & o & w2 & u & e & w3 & w4 & allDocs & w5 & fc
          & _ & _ & _ & _ & _ & Ef)]].
  - destruct (fst (handler req w)); [auto | auto | contradiction].
  - rewrite Ef. intros [H|H]; [congruence|].
    exfalso. apply H. f_equal.
    apply (f_equal fst) in Er. cbn [fst] in Er.
    now destruct (run_files_thrown _ _ _ _ _ _ _ Er).
  - rewrite Ef. exact I.
Qed.

(** X24: The structured 200 result is produced only if the request is a POST whose
    URL lacks 'test', the intake accepted the parts and handed over those with
    a filename, at least one of them, userId and businessId are present, the
    mappings parsed to a value other than null, every label of the batch
    converts to a string, and both the ownership lookup and the profile
    lookup returned a single row; its debug.uploadedCount equals the number
    of success entries. *)
Theorem handler_result_requires req w st body w' :
  handler req w = (JsonResult st body, w') ->
  st = 200
  /\ req_method req = lit "POST"
  /\ (forall url, req_url req = Some url -> includes (lit "test") url = false)
  /\ multer_array (w_at_limit w) (lit "documents") 10 (req_parts req)
     = inr (filter has_filename (req_parts req))
  /\ filter has_filename (req_parts req) <> []
  /\ (exists mappings,
        parsed_mappings (body_documentMappings req) = Some mappings
        /\ labels_convert mappings 0 (filter has_filename (req_parts req)) = true)
  /\ (exists userId businessId prov businessProfile w1 w2,
        present (body_userId req) = Some userId
        /\ present (body_businessId req) = Some businessId
        /\ select_provider userId businessId w = (inr prov, w1)
        /\ select_profile businessId w1 = (inr businessProfile, w2)
        /\ debug_businessId body = businessId
        /\ requiredDocuments body = required_types (bp_business_type businessProfile))
  /\ success body = true
  /\ debug_uploadedCount body = N.of_nat (List.length (uploaded body)).
Proof.
  intros H.
  destruct (handler_cases req w)
    as [(Hk & _)
       |[(files & b & bp & o & w2 & message & _ & _ & Ef)
        |(files & b & bp & o & w2 & u & e & w3 & w4 & allDocs & w5 & fc
          & Hreach & Er & _ & _ & _ & Ef)]];
    rewrite H in *; cbn [fst snd] in *; try contradiction; try discriminate.
  injection Ef as -> ->.
  destruct Hreach as (Hm & Hu & Hmul & Hne & Hbi & Hmap & userId & prov & w1 & Hui & Hp & Hf).
  assert (Hfiles : files = filter has_filename (req_parts req))
    by (apply multer_array_accepts in Hmul; tauto).
  subst files.
  cbn [success debug_uploadedCount uploaded debug_businessId requiredDocuments].
  repeat split; try assumption; try reflexivity.
  - exists o. split; [exact Hmap|].
    apply (f_equal fst) in Er. cbn [fst] in Er.
    exact (run_files_completed _ _ _ _ _ _ _ Er).
  - exists userId, b, prov, bp, w1, w2. repeat split; assumption || reflexivity.
Qed.

(** X25: When the response says allRequiredUploaded = true, every label listed in
    requiredDocuments is carried, in the table as it stands after the request,
    by a record of that business with status pending, verified or under_review
    (a failed requirement query can only make the flag false). *)
Theorem readiness_flag_sound req w st body w' :
  handler req w = (JsonResult st body, w') ->
  allRequiredUploaded body = true ->
  forall label, In label (requiredDocuments body) ->
                counts_toward (debug_businessId body) (w_documents w') label.
Proof.
  intros H.
  destruct (handler_cases req w)
    as [(Hk & _)
       |[(files & b & bp & o & w2 & message & _ & _ & Ef)
        |(files & b & bp & o & w2 & u & e & w3 & w4 & allDocs & w5 & fc
          & _ & _ & _ & Eq & Ea & Ef)]];
    rewrite H in *; cbn [fst snd] in *; try contradiction; try discriminate.
  injection Ef as -> ->.
  cbn [allRequiredUploaded requiredDocuments debug_businessId].
  intros Hflag label Hin.
  destruct (select_qualifying_inv _ _ _ _ Eq) as [(_ & Hd5 & _) [->| ->]];
    destruct (select_all_inv _ _ _ _ Ea) as (_ & Hd6 & _).
  - rewrite requirement_check_failed_query in Hflag. discriminate.
  - rewrite Hd6, Hd5.
    exact (proj1 (requirement_check_answered _ _ _) Hflag label Hin).
Qed.

(** X26: For every request and every behaviour of the remote services, the handler
    only appends to business_documents (all new rows pending and of the
    request's business) and keeps every pre-existing blob; it adds no row at
    all when it answers the test probe or an error other than 500, and the
    success entries of a 200 result carry exactly the ids of the rows it
    added.  A 500 raised inside the loop can follow rows already added: when
    the label of the second of two files is an object whose toString is not
    a function, the answer is 500 and the record of the first file stays. *)
Theorem handler_only_appends_records req w :
  exists extra,
    w_documents (snd (handler req w)) = w_documents w ++ extra
    /\ Forall (fun d => present (body_businessId req) = Some (doc_business_id d)
                        /\ doc_verification_status d = lit "pending") extra
    /\ (forall blob, In blob (w_blobs w) -> In blob (w_blobs (snd (handler req w))))
    /\ match fst (handler req w) with
       | JsonResult _ body => map up_id (uploaded body) = map doc_id extra
       | JsonError st _ _ => st <> 500 -> extra = []
       | JsonTest _ _ _ => extra = []
       end
    /\ fst (handler unconvertible_request sample_world)
       = JsonError 500 (lit "Internal server error")
                   (Some (lit "Cannot convert object to primitive value"))
    /\ map doc_document_name (w_documents (snd (handler unconvertible_request sample_world)))
       = [lit "a.pdf"].
Proof.
  assert (Hrun : fst (handler unconvertible_request sample_world)
                 = JsonError 500 (lit "Internal server error")
                             (Some (lit "Cannot convert object to primitive value"))
                 /\ map doc_document_name
                      (w_documents (snd (handler unconvertible_request sample_world)))
                    = [lit "a.pdf"])
    by (vm_compute; split; reflexivity).
  destruct (handler_cases req w)
    as [(Hk & (Hb & Hd & _) & _)
       |[(files & b & bp & o & w2 & message & Hreach & Er & Ef)
        |(files & b & bp & o & w2 & u & e & w3 & w4 & allDocs & w5 & fc
          & Hreach & Er & Ea & Eq & Eall & Ef)]].
  - exists []. rewrite app_nil_r, Hd, Hb.
    split; [reflexivity|]. split; [constructor|]. split; [auto|].
    split; [|exact Hrun].
    destruct (fst (handler req w)); auto. contradiction.
  - destruct Hreach as (_ & _ & _ & _ & Hbi & _ & userId & prov & w1 & _ & Hp & Hf).
    destruct (select_provider_inv _ _ _ _ _ Hp) as (_ & Pb & Pd & _).
    destruct (select_profile_inv _ _ _ _ Hf) as (_ & Fb & Fd & _).
    pose proof (run_files_records b o files 0 [] [] w2) as HR. cbv zeta in HR.
    pose proof (run_files_blobs_kept b o files 0 [] [] w2) as HB.
    rewrite Er in HR, HB. cbn [fst snd] in HR, HB.
    destruct HR as (newu & extra & _ & Hd & HF & _).
    exists extra. rewrite Ef, Hd, Fd, Pd.
    split; [reflexivity|].
    split; [eapply Forall_impl; [|exact HF]; cbv beta; intros d [-> ?]; auto|].
    split; [intros blob Hin; apply HB; now rewrite Fb, Pb|].
    split; [congruence | exact Hrun].
  - destruct Hreach as (_ & _ & _ & _ & Hbi & _ & userId & prov & w1 & _ & Hp & Hf).
    destruct (select_provider_inv _ _ _ _ _ Hp) as (_ & Pb & Pd & _).
    destruct (select_profile_inv _ _ _ _ Hf) as (_ & Fb & Fd & _).
    pose proof (run_files_records b o files 0 [] [] w2) as HR. cbv zeta in HR.
    pose proof (run_files_blobs_kept b o files 0 [] [] w2) as HB.
    rewrite Er in HR, HB. cbn [fst snd] in HR, HB.
    destruct HR as (newu & extra & Hu & Hd & HF & Hid).
    pose proof (advance_setup_step_run b bp u w3) as HA. cbv zeta in HA.
    rewrite Ea in HA. cbn [snd] in HA. destruct HA as (Ad' & Ab' & _).
    destruct (select_qualifying_inv _ _ _ _ Eq) as [(Qb & Qd & _) _].
    destruct (select_all_inv _ _ _ _ Eall) as (Ab & Ad & _).
    exists extra. rewrite Ef, Ad, Qd, Ad', Hd, Fd, Pd, Ab, Qb, Ab'.
    split; [reflexivity|].
    split; [eapply Forall_impl; [|exact HF]; cbv beta; intros d [-> ?]; auto|].
    split; [intros blob Hin; apply HB; now rewrite Fb, Pb|].
    split; [|exact Hrun].
    cbn [uploaded]. rewrite (Hu u e eq_refl). exact Hid.
Qed.

(** ** The progress bar and the specialties *)

Lemma phase1_index_cases (s : jsstring) :
  let i := findIndex (fun id => str_eqb id s) phase1Steps in
  (i = -1 /\ ~ In s phase1Steps)%Z
  \/ (In s phase1Steps
      /\ ((i = 0 /\ s = lit "signup") \/ (i = 1 /\ s = lit "business_info")
          \/ (i = 2 /\ s = lit "documents") \/ (i = 3 /\ s = lit "review")))%Z.
Proof.
  cbv zeta. unfold findIndex, phase1Steps. cbn [findIndex_from].
  repeat match goal with
         | |- context [str_eqb ?a s] =>
             destruct (str_eqb a s) eqn:?;
             [match goal with
              | H : str_eqb a s = true |- _ => apply str_eqb_eq in H; subst s
              end; right; split; [cbn; tauto | cbn; tauto]|]
         end.
  left. split; [reflexivity|].
  intros [H|[H|[H|[H|[]]]]]; subst s;
    match goal with
    | E : str_eqb ?a ?a = false |- _ => rewrite str_eqb_refl in E; discriminate
    end.
Qed.

Lemma phase2_index_cases (s : jsstring) :
  let i := findIndex (fun id => str_eqb id s) phase2Steps in
  (i = -1 /\ ~ In s phase2Steps)%Z
  \/ (In s phase2Steps /\ 0 <= i <= 7 /\ (i = 7 <-> s = lit "final_review"))%Z.
Proof.
  cbv zeta. unfold findIndex, phase2Steps. cbn [findIndex_from].
  repeat match goal with
         | |- context [str_eqb ?a s] =>
             destruct (str_eqb a s) eqn:?;
             [match goal with
              | H : str_eqb a s = true |- _ => apply str_eqb_eq in H; subst s
              end; right; split;
              [cbn; tauto | split; [cbn; lia | ]]|]
         end.
  all: try (cbn; split; intros H0;
            first [reflexivity | lia | (vm_compute in H0; discriminate H0)]).
  left. split; [reflexivity|].
  intros H. repeat (destruct H as [H|H]; [subst s;
    match goal with
    | E : str_eqb ?a ?a = false |- _ => rewrite str_eqb_refl in E; discriminate
    end|]). exact H.
Qed.

(** X27: The onboarding progress percentage is always between 0 and 100; it is 0
    exactly when the current step is not one of the listed steps of the phase
    (e.g. 'submitted', or the verification steps of phase 2) and 100 exactly
    at the last listed step ('review', resp. 'final_review'). *)
Theorem progress_percentage_range st :
  (0 <= getProgressPercentage st <= 100)%Z
  /\ (getProgressPercentage st = 0%Z
      <-> match phase st with
          | Phase1 => ~ In (phase1Step st) phase1Steps
          | _ => ~ In (phase2Step st) phase2Steps
          end)
  /\ (getProgressPercentage st = 100%Z
      <-> match phase st with
          | Phase1 => phase1Step st = lit "review"
          | _ => phase2Step st = lit "final_review"
          end).
Proof.
  unfold getProgressPercentage, getCurrentStepIndex, getTotalSteps, round_percent.
  destruct st as [ph s1 s2]. cbn [phase phase1Step phase2Step].
  destruct ph.
  - pose proof (phase1_index_cases s1) as H. cbv zeta in H.
    change (Z.of_nat (List.length phase1Steps)) with 4%Z.
    destruct H as [[-> Hn]|[Hin [[-> ->]|[[-> ->]|[[-> ->]|[-> ->]]]]]];
      cbn -[In phase1Steps lit]; (split; [lia|]).
    + split; [tauto|]. split; [discriminate|].
      intros ->. exfalso. apply Hn. cbn. tauto.
    + split; [split; [discriminate | intros Hx; exfalso; apply Hx; exact Hin]|].
      split; [discriminate | intros E; vm_compute in E; discriminate E].
    + split; [split; [discriminate | intros Hx; exfalso; apply Hx; exact Hin]|].
      split; [discriminate | intros E; vm_compute in E; discriminate E].
    + split; [split; [discriminate | intros Hx; exfalso; apply Hx; exact Hin]|].
      split; [discriminate | intros E; vm_compute in E; discriminate E].
    + split; [split; [discriminate | intros Hx; exfalso; apply Hx; exact Hin]|].
      split; reflexivity.
  - pose proof (phase2_index_cases s2) as H. cbv zeta in H.
    change (Z.of_nat (List.length phase2Steps)) with 8%Z.
    destruct H as [[-> Hn]|[Hin [Hr Hl]]].
    + cbn -[In phase2Steps lit]. split; [lia|]. split; [tauto|].
      split; [discriminate|]. intros ->. exfalso. apply Hn. cbn. tauto.
    + set (i := findIndex _ phase2Steps) in *.
      assert (Hi : (i = 0 \/ i = 1 \/ i = 2 \/ i = 3 \/ i = 4 \/ i = 5 \/ i = 6 \/ i = 7)%Z)
        by lia.
      clearbody i.
      destruct Hi as [->|[->|[->|[->|[->|[->|[->| ->]]]]]]];
        cbn -[In phase2Steps lit]; (split; [lia|]); (split; [split; [discriminate | tauto]|]);
        (split; [intros E; apply Hl; first [discriminate E | reflexivity]
                | intros E; apply Hl in E; first [discriminate E | reflexivity]]).
  - pose proof (phase2_index_cases s2) as H. cbv zeta in H.
    change (Z.of_nat (List.length phase2Steps)) with 8%Z.
    destruct H as [[-> Hn]|[Hin [Hr Hl]]].
    + cbn -[In phase2Steps lit]. split; [lia|]. split; [tauto|].
      split; [discriminate|]. intros ->. exfalso. apply Hn. cbn. tauto.
    + set (i := findIndex _ phase2Steps) in *.
      assert (Hi : (i = 0 \/ i = 1 \/ i = 2 \/ i = 3 \/ i = 4 \/ i = 5 \/ i = 6 \/ i = 7)%Z)
        by lia.
      clearbody i.
      destruct Hi as [->|[->|[->|[->|[->|[->|[->| ->]]]]]]];
        cbn -[In phase2Steps lit]; (split; [lia|]); (split; [split; [discriminate | tauto]|]);
        (split; [intros E; apply Hl; first [discriminate E | reflexivity]
                | intros E; apply Hl in E; first [discriminate E | reflexivity]]).
Qed.

(** X28: Outside phase 1, after any of the last four completion handlers (identity
    verification, bank connection, Stripe setup, phase-2 complete) the current
    step index is -1 and the progress bar reads 0%, because the step they set
    is not in the phase-2 step list. *)
Theorem last_setup_steps_show_no_progress st :
  phase st <> Phase1 ->
  Forall (fun st' => getCurrentStepIndex st' = (-1)%Z /\ getProgressPercentage st' = 0%Z)
         [handleIdentityVerificationComplete st; handleBankConnectionComplete st;
          handleStripeSetupComplete st; handlePhase2Complete st].
Proof.
  intros H. destruct st as [[| |] s1 s2]; [contradiction| |];
    repeat constructor.
Qed.

(** X29: addSpecialty keeps the specialties list free of duplicates and of empty
    strings: it either leaves the list unchanged (blank input or already
    present) or appends the trimmed text, which was not in the list. *)
Theorem addSpecialty_keeps_list_clean newSpecialty specialties :
  NoDup specialties ->
  Forall (fun s => s <> []) specialties ->
  NoDup (addSpecialty newSpecialty specialties)
  /\ Forall (fun s => s <> []) (addSpecialty newSpecialty specialties)
  /\ (addSpecialty newSpecialty specialties = specialties
      \/ (~ In (trim newSpecialty) specialties
          /\ addSpecialty newSpecialty specialties = specialties ++ [trim newSpecialty])).
Proof.
  intros Hnd Hne. unfold addSpecialty.
  destruct (trim newSpecialty) as [|c t] eqn:Et; [auto|].
  destruct (existsb (str_eqb (c :: t)) specialties) eqn:Ex; cbn [negb]; [auto|].
  assert (Hnot : ~ In (c :: t) specialties).
  { intros Hin.
    assert (existsb (str_eqb (c :: t)) specialties = true)
      by (apply existsb_exists; exists (c :: t); split; [exact Hin | apply str_eqb_refl]).
    congruence. }
  split; [|split].
  - apply NoDup_app; [exact Hnd | repeat constructor; intros [] |].
    intros x Hx [<-|[]]. contradiction.
  - apply Forall_app. split; [exact Hne | repeat constructor; discriminate].
  - right. auto.
Qed.

(** X30: Removing the trimmed text right after adding it gives back the original
    list, provided the trimmed text was not already in the list. *)
Theorem removeSpecialty_undoes_add newSpecialty specialties :
  ~ In (trim newSpecialty) specialties ->
  removeSpecialty (trim newSpecialty) (addSpecialty newSpecialty specialties)
  = specialties.
Proof.
  intros Hnot.
  assert (Hkeep : removeSpecialty (trim newSpecialty) specialties = specialties).
  { unfold removeSpecialty. induction specialties as [|s l IH]; [reflexivity|].
    cbn [filter]. destruct (str_eqb s (trim newSpecialty)) eqn:E.
    - apply str_eqb_eq in E. exfalso. apply Hnot. now left.
    - cbn [negb]. rewrite IH; [reflexivity|]. intros H. apply Hnot. now right. }
  unfold addSpecialty. destruct (trim newSpecialty) as [|c t] eqn:Et; [exact Hkeep|].
  destruct (existsb (str_eqb (c :: t)) specialties); cbn [negb]; [exact Hkeep|].
  unfold removeSpecialty in *. rewrite filter_app, Hkeep. cbn [filter].
  rewrite str_eqb_refl. cbn [negb]. apply app_nil_r.
Qed.

(** ** Worked cases of the further properties *)

Lemma resolve_by_normal_form_witness :
  normalize (lit "my  file.pdf") = normalize (lit "my@file.pdf")
  /\ resolve_document_type spaced_mapping (lit "my  file.pdf") 3
     = resolve_document_type spaced_mapping (lit "my@file.pdf") 3.
Proof.
  split; [vm_compute; reflexivity|].
  apply (resolve_by_normal_form spaced_mapping (lit "my  file.pdf") (lit "my@file.pdf") 3).
  - vm_compute. reflexivity.
  - vm_compute. reflexivity.
  - vm_compute. reflexivity.
Defined.

Lemma resolve_falls_back_witness :
  truthy (js_get empty_value_mapping (lit "a.pdf")) = false
  /\ resolve_document_type empty_value_mapping (lit "a.pdf") 4
     = JStr (lit "document_" ++ dec 4).
Proof.
  split; [reflexivity|].
  apply (resolve_falls_back empty_value_mapping (lit "a.pdf") 4).
  - reflexivity.
  - intros k v [H|[]] _. now injection H as _ <-.
Defined.

Lemma fallback_labels_distinct_witness :
  resolve_document_type [] (lit "x.png") 0 <> resolve_document_type [] (lit "x.png") 1.
Proof.
  apply (fallback_labels_distinct (lit "x.png") (lit "x.png") 0 1).
  - vm_compute. reflexivity.
  - vm_compute. reflexivity.
  - discriminate.
Defined.

Lemma file_extension_spec_witness :
  ~ In 46 (lit "pdf")
  /\ file_extension (lit "scan.final" ++ 46 :: lit "pdf") = lit "pdf".
Proof.
  assert (H : ~ In 46 (lit "pdf")).
  { vm_compute. intros [H|[H|[H|[]]]]; discriminate H. }
  split; [exact H|].
  exact (proj1 (file_extension_spec (lit "scan.final") (lit "pdf") H)).
Defined.

Lemma upload_failure_skips_record_witness :
  size sample_pdf <= 5 * MB
  /\ converts (resolve_in (plain_object sample_mapping) (originalname sample_pdf) 0) = true
  /\ exists err,
       fst (run_file (lit "b1") (plain_object sample_mapping) 0 sample_pdf ([], [])
                     failing_upload_world)
       = inl ([], [] ++ [err]).
Proof.
  split; [vm_compute; discriminate|]. split; [vm_compute; reflexivity|].
  destruct (upload_failure_skips_record (lit "b1") (plain_object sample_mapping) 0
              sample_pdf [] [] [] failing_upload_world
              (snd (storage_upload
                      (lit "provider-documents/b1/drivers_license_1700000000000.pdf")
                      (buffer sample_pdf) (mimetype sample_pdf) failing_upload_world))
              (lit "The object exceeded the maximum allowed size"))
    as (text & h & _ & _ & _ & H).
  - vm_compute. discriminate.
  - vm_compute. reflexivity.
  - vm_compute. reflexivity.
  - cbv zeta in H. destruct H as (Hrun & _). eexists. now rewrite Hrun.
Defined.

Lemma success_persists_record_witness :
  size sample_pdf <= 5 * MB
  /\ resolve_in (plain_object slashed_mapping) (originalname sample_pdf) 0
     = JStr (lit "id//front page")
  /\ exists row w3,
       snd (run_file (lit "b1") (plain_object slashed_mapping) 0 sample_pdf ([], [])
                     sample_world) = w3
       /\ w_documents w3 = w_documents sample_world ++ [row]
       /\ doc_file_url row
          = lit "https://project.supabase.co/storage/v1/object/public/provider-documents/provider-documents/b1/id/front%20page_1700000000000.pdf"
       /\ map blob_path (w_blobs w3)
          = [lit "provider-documents/b1/id/front page_1700000000000.pdf"].
Proof.
  split; [vm_compute; discriminate|]. split; [vm_compute; reflexivity|].
  destruct (success_persists_record (lit "b1") (plain_object slashed_mapping) 0
              sample_pdf (lit "id//front page") [] [] sample_world
              (lit "provider-documents/b1/id/front page_1700000000000.pdf")
              (snd (storage_upload
                      (lit "provider-documents/b1/id//front page_1700000000000.pdf")
                      (buffer sample_pdf) (mimetype sample_pdf) sample_world))
              (lit "https://project.supabase.co/storage/v1/object/public/provider-documents/provider-documents/b1/id/front%20page_1700000000000.pdf")
              (snd (run_file (lit "b1") (plain_object slashed_mapping) 0 sample_pdf
                             ([], []) sample_world))
              (mkDocRow 0 (lit "b1") (Some (lit "id//front page")) (lit "a.pdf")
                 (lit "https://project.supabase.co/storage/v1/object/public/provider-documents/provider-documents/b1/id/front%20page_1700000000000.pdf")
                 1000 (lit "pending") 1700000000000))
    as (_ & _ & _ & Hd & _ & Hb).
  - vm_compute. discriminate.
  - vm_compute. reflexivity.
  - vm_compute. reflexivity.
  - vm_compute. reflexivity.
  - vm_compute. reflexivity.
  - eexists. eexists. split; [reflexivity|]. split; [exact Hd|].
    split; [reflexivity|]. rewrite Hb. reflexivity.
Defined.


Lemma process_files_keeps_blobs_witness :
  In old_blob (w_blobs stocked_world)
  /\ In old_blob
        (w_blobs (snd (process_files (lit "b1") sample_mapping 0 [sample_pdf; second_pdf]
                                     ([], []) stocked_world))).
Proof.
  assert (H : In old_blob (w_blobs stocked_world)) by (now left).
  split; [exact H|].
  exact (process_files_keeps_blobs (lit "b1") sample_mapping [sample_pdf; second_pdf]
           0 [] [] stocked_world old_blob H).
Defined.

Lemma first_upload_never_advances_witness :
  fst (fst (process_files (lit "b1") sample_mapping 0 [sample_pdf] ([], []) sample_world))
  <> []
  /\ map bp_setup_step
       (w_profiles
          (snd (advance_setup_step (lit "b1")
                  (mkProfileRow (lit "b1") (lit "llc") (lit "pending") 1 0)
                  (fst (fst (process_files (lit "b1") sample_mapping 0 [sample_pdf]
                                           ([], []) sample_world)))
                  (snd (process_files (lit "b1") sample_mapping 0 [sample_pdf]
                                      ([], []) sample_world))))) = [1].
Proof.
  assert (H : fst (fst (process_files (lit "b1") sample_mapping 0 [sample_pdf] ([], [])
                                      sample_world)) <> [])
    by (vm_compute; discriminate).
  split; [exact H|].
  destruct (first_upload_never_advances (lit "b1") sample_mapping
              (mkProfileRow (lit "b1") (lit "llc") (lit "pending") 1 0)
              [sample_pdf] sample_world H) as [Hp _].
  - vm_compute. reflexivity.
  - rewrite Hp. reflexivity.
Defined.

Lemma failed_existence_query_resets_step_witness :
  map bp_setup_step (w_profiles advanced_profile_world) = [5]
  /\ map bp_setup_step
       (w_profiles
          (snd (advance_setup_step (lit "b1")
                  (mkProfileRow (lit "b1") (lit "llc") (lit "approved") 5 0)
                  [mkUploadedEntry 0 (JStr (lit "drivers_license")) (lit "a.pdf") []
                                   (lit "uploaded") 0]
                  advanced_profile_world))) = [2].
Proof.
  split; [reflexivity|].
  rewrite (failed_existence_query_resets_step (lit "b1")
             (mkProfileRow (lit "b1") (lit "llc") (lit "approved") 5 0)
             (mkUploadedEntry 0 (JStr (lit "drivers_license")) (lit "a.pdf") []
                              (lit "uploaded") 0)
             [] advanced_profile_world (lit "timeout") []).
  - reflexivity.
  - reflexivity.
  - reflexivity.
Defined.

Lemma requirement_monotone_witness :
  all_required_uploaded (lit "sole_proprietorship")
    (Some (qualifying_docs (lit "b1") base_docs)) = true
  /\ all_required_uploaded (lit "sole_proprietorship")
       (Some (qualifying_docs (lit "b1") (base_docs ++ [rejected_doc]))) = true.
Proof.
  assert (H : all_required_uploaded (lit "sole_proprietorship")
                (Some (qualifying_docs (lit "b1") base_docs)) = true)
    by (vm_compute; reflexivity).
  split; [exact H|].
  exact (requirement_monotone (lit "sole_proprietorship") (lit "b1") base_docs
           [rejected_doc] H).
Defined.

Lemma requirement_ignores_other_records_witness :
  all_required_uploaded (lit "llc")
    (Some (qualifying_docs (lit "b1") (base_docs ++ [rejected_doc])))
  = all_required_uploaded (lit "llc") (Some (qualifying_docs (lit "b1") base_docs)).
Proof.
  apply (requirement_ignores_other_records (lit "llc") (lit "b1") base_docs [rejected_doc]).
  constructor; [|constructor].
  right. repeat split; vm_compute; discriminate.
Defined.

Lemma requirement_needs_business_license_witness :
  lit "llc" <> lit "sole_proprietorship"
  /\ all_required_uploaded (lit "llc")
       (Some (qualifying_docs (lit "b1") (base_docs ++ [rejected_doc]))) = false.
Proof.
  split; [vm_compute; discriminate|].
  apply (requirement_needs_business_license (lit "llc") (lit "b1")
           (base_docs ++ [rejected_doc])).
  - vm_compute. discriminate.
  - intros (d & Hin & _ & Ht & Hs).
    repeat (destruct Hin as [<-|Hin]; [vm_compute in Ht; try discriminate Ht|]).
    + destruct Hs as [Hs|[Hs|Hs]]; vm_compute in Hs; discriminate Hs.
    + destruct Hin.
Defined.

Lemma handler_result_requires_witness :
  exists body w',
    handler (sample_request [sample_pdf]) sample_world = (JsonResult 200 body, w')
    /\ debug_uploadedCount body = N.of_nat (List.length (uploaded body)).
Proof.
  assert (H : exists body w',
             handler (sample_request [sample_pdf]) sample_world = (JsonResult 200 body, w'))
    by (vm_compute; eexists; eexists; reflexivity).
  destruct H as (body & w' & H). exists body, w'. split; [exact H|].
  apply (handler_result_requires _ _ _ _ _ H).
Defined.

Lemma readiness_flag_sound_witness :
  exists body w',
    handler (sample_request [sample_pdf]) almost_ready_world = (JsonResult 200 body, w')
    /\ allRequiredUploaded body = true
    /\ counts_toward (lit "b1") (w_documents w') (lit "drivers_license").
Proof.
  assert (H : exists body w',
             handler (sample_request [sample_pdf]) almost_ready_world
             = (JsonResult 200 body, w')
             /\ allRequiredUploaded body = true
             /\ debug_businessId body = lit "b1"
             /\ In (lit "drivers_license") (requiredDocuments body))
    by (vm_compute; eexists; eexists; repeat split; now left).
  destruct H as (body & w' & H & Hflag & Hb & Hin). exists body, w'.
  split; [exact H|]. split; [exact Hflag|].
  rewrite <- Hb.
  exact (readiness_flag_sound _ _ _ _ _ H Hflag (lit "drivers_license") Hin).
Defined.

Lemma last_setup_steps_show_no_progress_witness :
  phase verification_state <> Phase1
  /\ getProgressPercentage (handleStripeSetupComplete verification_state) = 0%Z.
Proof.
  assert (H : phase verification_state <> Phase1) by discriminate.
  split; [exact H|].
  pose proof (last_setup_steps_show_no_progress verification_state H) as HF.
  rewrite Forall_forall in HF.
  apply (HF (handleStripeSetupComplete verification_state)).
  right. right. now left.
Defined.

Lemma addSpecialty_keeps_list_clean_witness :
  NoDup [lit "Massage"]
  /\ NoDup (addSpecialty (lit "  Yoga ") [lit "Massage"]).
Proof.
  assert (H : NoDup [lit "Massage"]) by (repeat constructor; intros []).
  split; [exact H|].
  apply (addSpecialty_keeps_list_clean (lit "  Yoga ") [lit "Massage"] H).
  repeat constructor. discriminate.
Defined.

Lemma removeSpecialty_undoes_add_witness :
  ~ In (trim (lit "  Yoga ")) [lit "Massage"]
  /\ removeSpecialty (trim (lit "  Yoga ")) (addSpecialty (lit "  Yoga ") [lit "Massage"])
     = [lit "Massage"].
Proof.
  assert (H : ~ In (trim (lit "  Yoga ")) [lit "Massage"]).
  { vm_compute. intros [H|[]]. discriminate H. }
  split; [exact H|].
  exact (removeSpecialty_undoes_add (lit "  Yoga ") [lit "Massage"] H).
Defined.
